(** * Structoo: the design-check engine behind the floor-beam and purlin pages

    The two pages [src/floor_beams.py] and [src/purlins.py] gather the form
    inputs, turn them into one governing load, and hand moment and span to
    the section selector of [utils/calculations.py].  This development embeds
    the two [calculate_results] functions as they are written and the helper
    module they import as the design document describes it.

    Numbers.  The pages compute with Python floats.  They are read here as
    rationals ([Q]): every formula of the engine is a polynomial or a
    quotient, so the algebra is exact and executable, and rounding is left
    out of the model.  Python's [/] raises on a zero divisor; [Py.truediv]
    keeps that. *)

From Stdlib Require Import QArith Qminmax String Ascii List Bool Arith Lia Lqa.
From Stdlib Require Import Permutation ZArith.
Import ListNotations.

Local Open Scope string_scope.
Local Open Scope Q_scope.

(** ** Python-level vocabulary: exceptions, [str.lower], [in], [/] *)

Module Py.

Inductive exn : Type :=
| ZeroDivisionError
| InvalidUnit
| UnsupportedPattern
| InvalidInput.

Inductive result (A : Type) : Type :=
| Ok (a : A)
| Raise (e : exn).

Arguments Ok {A} a.
Arguments Raise {A} e.

Definition bind {A B : Type} (c : result A) (k : A -> result B) : result B :=
  match c with
  | Ok a => k a
  | Raise e => Raise e
  end.

Definition raises {A : Type} (c : result A) : bool :=
  match c with
  | Ok _ => false
  | Raise _ => true
  end.

(** [a / b] on floats. *)
Definition truediv (a b : Q) : result Q :=
  if Qeq_bool b 0 then Raise ZeroDivisionError else Ok (a / b).

(** [a > b]. *)
Definition gt (a b : Q) : bool := negb (Qle_bool a b).

Definition lower_ascii (c : ascii) : ascii :=
  let n := nat_of_ascii c in
  if Nat.leb 65 n && Nat.leb n 90 then ascii_of_nat (n + 32) else c.

(** [s.lower()], on the byte string: only A..Z move. *)
Fixpoint lower (s : string) : string :=
  match s with
  | EmptyString => EmptyString
  | String c t => String (lower_ascii c) (lower t)
  end.

(** [sub in s]. *)
Fixpoint contains (sub s : string) : bool :=
  if String.prefix sub s then true
  else match s with
       | EmptyString => false
       | String _ t => contains sub t
       end.

End Py.

Import Py.

Notation "x <- c ;; k" := (Py.bind c (fun x => k))
  (at level 61, c at next level, right associativity).

(** ** Static tables ([utils/constants.py] and the section catalog)

    None of the tables is part of the two pages.  They are taken as one
    parameter of the whole development: no theorem depends on a value of
    theirs.  The fields of a section are the keys the pages display. *)

Record SectionProperties : Type := mkSection {
  name : string;
  height : Q;
  width : Q;
  web_thickness : Q;
  flange_thickness : Q;
  area : Q;
  Ix : Q;
  Zx : Q
}.

(** Modelled from the spec: the static configuration of section 6 (grade
    tables per regime, mass-to-force constant), the catalog of section 4.4,
    and the regime-dependent figures of section 4.6 (compact limits,
    critical moment, reduction factor), for which the design document gives
    no value and no formula. *)
Class Tables : Type := {
  (** the mass-to-force constant *)
  KG_TO_KN : Q;
  (** Young's modulus, in the units of the catalog *)
  E_MODULUS : Q;
  (** yield stress of a grade under a code regime; [None] when the grade is
      not in the regime's table *)
  yield_stress : string -> string -> option Q;
  (** the catalog of a regime and family, ascending: smallest entry, then
      the rest *)
  sections_for : string -> string -> SectionProperties * list SectionProperties;
  (** compact limits of flange and web for a regime and a yield stress *)
  flange_limit : string -> Q -> Q;
  web_limit : string -> Q -> Q;
  (** elastic critical moment of a section over an unbraced length derived
      from the span; [None] when the section lacks the properties the
      formula needs *)
  ltb_critical : SectionProperties -> Q -> Q -> option Q;
  (** the regime's reduction factor on the critical moment *)
  ltb_factor : string -> Q
}.

(** ** Result structures of the engine

    The pages read the selector's result by key: [overall_status],
    [section_properties], [deflection], and the four checks with the keys
    listed below.  Each dictionary becomes a record in a module of its own,
    so that the keys keep their names. *)

Inductive Status : Type :=
| Safe
| Unsafe
| CannotDetermine.

(** The strings the pages compare a status against. *)
Definition status_string (s : Status) : string :=
  match s with
  | Safe => "Safe"
  | Unsafe => "Unsafe"
  | CannotDetermine => "Cannot determine - missing section properties"
  end.

Definition Status_eqb (a b : Status) : bool :=
  match a, b with
  | Safe, Safe | Unsafe, Unsafe | CannotDetermine, CannotDetermine => true
  | _, _ => false
  end.

Inductive Classification : Type :=
| Compact
| NonCompact.

Module CapacityCheck.
Record t : Type := mk {
  status : Status;
  moment_capacity : Q;
  safety_factor : Q;
  utilization : Q
}.
End CapacityCheck.

Module CompactnessCheck.
Record t : Type := mk {
  classification : Classification;
  flange_ratio : Q;
  flange_compact_limit : Q;
  flange_status : Status;
  web_ratio : Q;
  web_compact_limit : Q;
  web_status : Status
}.
End CompactnessCheck.

Module LtbCheck.
Record t : Type := mk {
  status : Status;
  critical_moment : Q;
  design_capacity : Q;
  utilization : Q
}.
End LtbCheck.

Module DeflectionCheck.
Record t : Type := mk {
  status : Status;
  allowable_deflection : Q;
  limit_ratio : string;
  utilization : Q
}.
End DeflectionCheck.

(** The dictionary [select_optimal_section] returns.  The first seven keys
    are those the pages read; [catalog_exhausted] is the flag of section 4.5
    of the design document. *)
Record DesignResult : Type := mkDesignResult {
  section_properties : SectionProperties;
  deflection : Q;
  capacity_check : CapacityCheck.t;
  compactness_check : CompactnessCheck.t;
  ltb_check : LtbCheck.t;
  deflection_check : DeflectionCheck.t;
  overall_status : Status;
  catalog_exhausted : bool
}.

(** The [loads] dictionary the purlin page builds, and the dictionary
    [calculate_critical_moment] answers with. *)
Record Loads : Type := mkLoads {
  dead : Q;
  live : Q;
  wind : Q;
  maintenance : Q;
  additional : Q
}.

Module MomentResults.
Record t : Type := mk {
  critical_moment : Q;
  critical_case : string
}.
End MomentResults.

(** ** [utils/calculations.py]

    The pages import this module; its text is not part of the two files.
    Every function below is therefore written from the design document, with
    the name and the argument list the pages call it with. *)

Module Calculations.
Section WithTables.
Context `{T : Tables}.

(** Modelled from the spec: [convert_to_kn(value, unit)], absent from the
    two pages.  Section 4.1: mass units go to force through the fixed
    constant, force units pass; the unit is recognised by a case-insensitive
    substring match, and an unrecognised one fails with InvalidUnit.  The
    call takes no width and no span: spreading over the span is done by the
    caller. *)
Definition convert_to_kn (value : Q) (unit : string) : result Q :=
  let u := lower unit in
  if contains "kg" u then Ok (value * KG_TO_KN)
  else if contains "kn" u then Ok value
  else Raise InvalidUnit.

(** Modelled from the spec: [calculate_moment(span, load, load_type)].
    Section 4.2: w.L^2/8 under a uniform load, P.L/4 under a point load at
    midspan, UnsupportedPattern for any other tag.  The two tags are the
    strings the pages pass. *)
Definition calculate_moment (span load : Q) (load_type : string) : result Q :=
  if String.eqb load_type "uniform" then Ok (load * (span * span) / 8)
  else if String.eqb load_type "point_center" then Ok (load * span / 4)
  else Raise UnsupportedPattern.

(** Modelled from the spec: [calculate_shear_force(span, load, load_type)].
    Section 4.2: w.L/2 under a uniform load, P/2 under a point load. *)
Definition calculate_shear_force (span load : Q) (load_type : string) : result Q :=
  if String.eqb load_type "uniform" then Ok (load * span / 2)
  else if String.eqb load_type "point_center" then Ok (load / 2)
  else Raise UnsupportedPattern.

(** Modelled from the spec: [calculate_deflection].  Section 4.2:
    5.w.L^4/(384.E.I) and P.L^3/(48.E.I). *)
Definition calculate_deflection (span load : Q) (load_type : string) (I : Q)
  : result Q :=
  if String.eqb load_type "uniform"
  then Ok (5 * load * (span * span * span * span) / (384 * E_MODULUS * I))
  else if String.eqb load_type "point_center"
  then Ok (load * (span * span * span) / (48 * E_MODULUS * I))
  else Raise UnsupportedPattern.

(** Modelled from the spec: [calculate_wind_load(span, wind_load,
    purlin_spacing)].  Section 4.1: a per-area load becomes a per-length
    load through the spacing. *)
Definition calculate_wind_load (span wind_load purlin_spacing : Q) : Q :=
  wind_load * purlin_spacing.

(** *** LoadCombiner *)

(** Modelled from the spec: the enumeration of section 4.3, in its order,
    each combination with its load and its pattern.  The names are those the
    purlin page tests its critical case against: it compares with
    ["Maintenance (point load)"] and looks for ["Dead + Live"],
    ["Maintenance"] and ["Wind"] inside the name.  Additional loads enter
    every linear-load sum; maintenance alone is the isolated point load. *)
Definition combinations (loads : Loads) (span : Q) : list (string * Q * string) :=
  [ ("Dead + Live",
     dead loads + live loads + additional loads, "uniform");
    ("Dead + Live + Wind",
     dead loads + live loads + wind loads + additional loads, "uniform");
    ("Maintenance (point load)",
     maintenance loads, "point_center");
    ("Dead + Live + Maintenance",
     dead loads + live loads + maintenance loads / span + additional loads,
     "uniform") ].

(** Modelled from the spec: the scan for the largest moment.  A later
    combination replaces the current one only when its moment is strictly
    larger, so the earlier one wins a tie. *)
Fixpoint critical_of (best : MomentResults.t) (span : Q)
  (cs : list (string * Q * string)) : result MomentResults.t :=
  match cs with
  | [] => Ok best
  | (n, w, p) :: rest =>
      m <- calculate_moment span w p ;;
      critical_of (if gt m (MomentResults.critical_moment best)
                   then MomentResults.mk m n else best) span rest
  end.

(** Modelled from the spec: [calculate_critical_moment(loads, span)].  With
    every load zero every moment is zero and the first combination is
    reported: the degenerate case is not an error. *)
Definition calculate_critical_moment (loads : Loads) (span : Q)
  : result MomentResults.t :=
  match combinations loads span with
  | [] => Ok (MomentResults.mk 0 EmptyString)
  | (n, w, p) :: rest =>
      m <- calculate_moment span w p ;;
      critical_of (MomentResults.mk m n) span rest
  end.

(** *** CapacityChecker *)

(** Modelled from the spec: a check is Safe when its condition holds and
    Unsafe otherwise (section 3, CheckResult). *)
Definition safe_if (b : bool) : Status := if b then Safe else Unsafe.

(** Modelled from the spec: bending capacity, section 4.6 (1).  Capacity is
    Zx times the yield stress, utilization is moment over capacity, and the
    check is Safe exactly when the utilization is at most 1. *)
Definition check_capacity (sec : SectionProperties) (fy moment : Q)
  : CapacityCheck.t :=
  let capacity := Zx sec * fy in
  let utilization := moment / capacity in
  CapacityCheck.mk (safe_if (Qle_bool utilization 1))
                   capacity (capacity / moment) utilization.

(** Modelled from the spec: compactness, section 4.6 (2).  Each axis has its
    own status; the section is Compact exactly when both are within their
    limits. *)
Definition check_compactness (sec : SectionProperties) (code : string) (fy : Q)
  : CompactnessCheck.t :=
  let flange_ratio := (width sec / 2) / flange_thickness sec in
  let web_ratio := (height sec - 2 * flange_thickness sec) / web_thickness sec in
  let flange_ok := Qle_bool flange_ratio (flange_limit code fy) in
  let web_ok := Qle_bool web_ratio (web_limit code fy) in
  CompactnessCheck.mk (if flange_ok && web_ok then Compact else NonCompact)
                      flange_ratio (flange_limit code fy) (safe_if flange_ok)
                      web_ratio (web_limit code fy) (safe_if web_ok).

(** Modelled from the spec: lateral-torsional buckling, section 4.6 (3).
    The design capacity is the lesser of the bending capacity and the
    critical moment reduced by the regime's factor.  When the section lacks
    the properties of the formula the status says so and the numbers stay
    at 0, which is what the pages display for a missing key.  The selector
    is called without a chord angle, so the unbraced length inside
    [ltb_critical] comes from the span alone. *)
Definition check_ltb (sec : SectionProperties) (code : string)
  (fy moment span : Q) : LtbCheck.t :=
  match ltb_critical sec span fy with
  | None => LtbCheck.mk CannotDetermine 0 0 0
  | Some mcr =>
      let design := Qmin (Zx sec * fy) (mcr * ltb_factor code) in
      let utilization := moment / design in
      LtbCheck.mk (safe_if (Qle_bool utilization 1)) mcr design utilization
  end.

(** Modelled from the spec: the deflection ratio, section 4.6 (4): 360 for
    floor beams, 240 for purlins, a constant per member type.  The selector
    is not told the member type; the floor-beam page always asks for the
    ["I-Beam"] family and the purlin page for ["Channel"], so the ratio is
    read off the family. *)
Definition limit_ratio_of (section_type : string) : Q * string :=
  if String.eqb section_type "Channel" then (240, "L/240") else (360, "L/360").

(** Modelled from the spec: deflection, section 4.6 (4).  Allowable is span
    over the ratio, utilization is actual over allowable, Safe exactly when
    the utilization is at most 1. *)
Definition check_deflection (span actual : Q) (ratio : Q * string)
  : DeflectionCheck.t :=
  let allowable := span / fst ratio in
  let utilization := actual / allowable in
  DeflectionCheck.mk (safe_if (Qle_bool utilization 1))
                     allowable (snd ratio) utilization.

(** Modelled from the spec: the selector holds a moment, not a load; the
    load the deflection formula needs is the one that gives this moment
    under the pattern (section 4.2 read backwards). *)
Definition load_from_moment (moment span : Q) (load_type : string) : Q :=
  if String.eqb load_type "uniform" then 8 * moment / (span * span)
  else 4 * moment / span.

(** Modelled from the spec: section 4.6, last paragraph: for the overall
    verdict an LTB check that could not be determined counts as Safe. *)
Definition ltb_passes (s : Status) : bool :=
  match s with
  | Safe | CannotDetermine => true
  | Unsafe => false
  end.

(** Modelled from the spec: the overall verdict, section 4.6: Safe exactly
    when the four checks report Safe, an undetermined LTB check counting as
    Safe. *)
Definition overall_of (cap : CapacityCheck.t) (cmp : CompactnessCheck.t)
  (ltb : LtbCheck.t) (dfl : DeflectionCheck.t) : Status :=
  safe_if (Status_eqb (CapacityCheck.status cap) Safe
           && Status_eqb (CompactnessCheck.flange_status cmp) Safe
           && Status_eqb (CompactnessCheck.web_status cmp) Safe
           && ltb_passes (LtbCheck.status ltb)
           && Status_eqb (DeflectionCheck.status dfl) Safe).

(** Modelled from the spec: the four checks of one candidate section
    (section 4.6), with the deflection recomputed for it (section 4.2). *)
Definition check_section (moment span : Q) (load_type : string) (fy : Q)
  (code section_type : string) (sec : SectionProperties) : result DesignResult :=
  d <- calculate_deflection span (load_from_moment moment span load_type)
         load_type (Ix sec) ;;
  let cap := check_capacity sec fy moment in
  let cmp := check_compactness sec code fy in
  let ltb := check_ltb sec code fy moment span in
  let dfl := check_deflection span d (limit_ratio_of section_type) in
  Ok (mkDesignResult sec d cap cmp ltb dfl (overall_of cap cmp ltb dfl) false).

(** *** SectionSelector *)

(** Modelled from the spec: the exhausted scan, section 4.5: the last
    candidate's result, verdict forced to Unsafe, flag raised. *)
Definition exhausted (r : DesignResult) : DesignResult :=
  mkDesignResult (section_properties r) (deflection r) (capacity_check r)
                 (compactness_check r) (ltb_check r) (deflection_check r)
                 Unsafe true.

(** Modelled from the spec: the linear scan of section 4.5 over the
    catalog in ascending order, stopping at the first Safe candidate. *)
Fixpoint select_from (check : SectionProperties -> result DesignResult)
  (candidate : SectionProperties) (rest : list SectionProperties)
  : result DesignResult :=
  r <- check candidate ;;
  if Status_eqb (overall_status r) Safe then Ok r
  else match rest with
       | [] => Ok (exhausted r)
       | next :: rest' => select_from check next rest'
       end.

(** Modelled from the spec: [select_optimal_section(moment, span, load_type,
    steel_grade, code, section_type)], with the six keyword arguments of the
    pages' calls.  A grade outside the regime's table is an InvalidInput
    (section 7). *)
Definition select_optimal_section (moment span : Q)
  (load_type steel_grade code section_type : string) : result DesignResult :=
  match yield_stress code steel_grade with
  | None => Raise InvalidInput
  | Some fy =>
      let (first, rest) := sections_for code section_type in
      select_from (check_section moment span load_type fy code section_type)
                  first rest
  end.

End WithTables.
End Calculations.

(** ** What the two pages share *)

(** One entry of [st.session_state.additional_loads]: the dictionary
    [{'value': .., 'unit': .., 'case': ..}] that [add_load] appends. *)
Module Load.
Record t : Type := mk {
  value : Q;
  unit : string;
  case : string
}.
End Load.

(** The options of the unit select box, the same list in both pages. *)
Definition UNIT_OPTIONS : list string :=
  ["kN"; "kN/m"; "kN/m²"; "kg"; "kg/m"; "kg/m²"].

Section AdditionalLoads.
Context `{T : Tables}.

(** The body of [for load in additional_loads]: convert, and spread over
    the span when the unit has no ["m"] in it. *)
Definition load_value_of (span : Q) (load : Load.t) : result Q :=
  load_value <- Calculations.convert_to_kn (Load.value load) (Load.unit load) ;;
  if negb (contains "m" (lower (Load.unit load)))
  then truediv load_value span
  else Ok load_value.

(** The loop itself, [additional_load_total] being the accumulator.  Both
    pages have the same text (floor_beams.py 76-84, purlins.py 75-82). *)
Fixpoint process_additional_loads (span additional_load_total : Q)
  (additional_loads : list Load.t) : result Q :=
  match additional_loads with
  | [] => Ok additional_load_total
  | load :: rest =>
      load_value <- load_value_of span load ;;
      process_additional_loads span (additional_load_total + load_value) rest
  end.

End AdditionalLoads.

(** ** [src/floor_beams.py] *)

Module FloorBeams.

(** The keys of [st.session_state] that [calculate_results] reads. *)
Record session_state : Type := mkState {
  span : Q;
  dead_load : Q;
  floor_cover_load : Q;
  live_load : Q;
  is_accessible : bool;
  chord_angle : Q;
  steel_grade : string;
  design_code : string;
  supported_beam_reaction : Q;
  additional_loads : list Load.t
}.

(** [st.session_state.design_results]: the inputs echoed back ([echo]
    stands for the ten keys copied from the state) and the four computed
    entries.  The diagrams are images and are left out. *)
Record design_results : Type := mkResults {
  design_type : string;
  echo : session_state;
  total_load : Q;
  moment : Q;
  shear : Q;
  results : DesignResult
}.

Section WithTables.
Context `{T : Tables}.

Definition calculate_results (st : session_state) : result design_results :=
  let beam_width := 1 in
  let total_dead_load := dead_load st in
  let total_floor_cover_load := floor_cover_load st * beam_width in
  let total_live_load := live_load st * beam_width in
  total_dead_load <-
    (if gt (supported_beam_reaction st) 0
     then equivalent_reaction_load <-
            truediv (supported_beam_reaction st) (span st) ;;
          Ok (total_dead_load + equivalent_reaction_load)
     else Ok total_dead_load) ;;
  additional_load_total <-
    process_additional_loads (span st) 0 (additional_loads st) ;;
  let total_load :=
    total_dead_load + total_floor_cover_load + total_live_load
    + additional_load_total in
  max_moment <- Calculations.calculate_moment (span st) total_load "uniform" ;;
  max_shear <- Calculations.calculate_shear_force (span st) total_load "uniform" ;;
  results <- Calculations.select_optimal_section
               max_moment (span st) "uniform" (steel_grade st)
               (lower (design_code st)) "I-Beam" ;;
  Ok (mkResults "Floor Beam" st total_load max_moment max_shear results).

End WithTables.
End FloorBeams.

(** ** [src/purlins.py] *)

Module Purlins.

(** The [purlin_*] keys of [st.session_state] that [calculate_results]
    reads. *)
Record session_state : Type := mkState {
  purlin_span : Q;
  purlin_dead_load : Q;
  purlin_live_load : Q;
  purlin_is_accessible : bool;
  purlin_maintenance_load : Q;
  purlin_wind_load : Q;
  purlin_chord_angle : Q;
  purlin_steel_grade : string;
  purlin_design_code : string;
  purlin_additional_loads : list Load.t
}.

(** [st.session_state.purlin_design_results]; [echo] stands for the keys
    copied from the state. *)
Record design_results : Type := mkResults {
  design_type : string;
  echo : session_state;
  moment : Q;
  shear : Q;
  critical_case : string;
  load_type : string;
  results : DesignResult
}.

Section WithTables.
Context `{T : Tables}.

(** The [else] branch of the shear computation: the uniform load put
    together from the name of the critical case. *)
Definition uniform_load_of_case (critical_case_str : string)
  (span total_dead_load total_live_load total_wind_load maintenance_load_kn
   additional_load_total : Q) : result Q :=
  let total_uniform_load := 0 in
  let total_uniform_load :=
    if contains "Dead + Live" critical_case_str
    then total_uniform_load + (total_dead_load + total_live_load)
    else total_uniform_load in
  total_uniform_load <-
    (if contains "Maintenance" critical_case_str
        && negb (contains "point" critical_case_str)
     then distributed <- truediv maintenance_load_kn span ;;
          Ok (total_uniform_load + distributed)
     else Ok total_uniform_load) ;;
  let total_uniform_load :=
    if contains "Wind" critical_case_str
    then total_uniform_load + total_wind_load
    else total_uniform_load in
  Ok (total_uniform_load + additional_load_total).

Definition calculate_results (st : session_state) : result design_results :=
  let span := purlin_span st in
  let maintenance_load_kn := purlin_maintenance_load st * KG_TO_KN in
  let purlin_spacing := 3 # 2 in
  let total_dead_load := purlin_dead_load st in
  let total_live_load := purlin_live_load st in
  let total_wind_load :=
    Calculations.calculate_wind_load span (purlin_wind_load st) purlin_spacing in
  additional_load_total <-
    process_additional_loads span 0 (purlin_additional_loads st) ;;
  let loads :=
    mkLoads total_dead_load total_live_load total_wind_load
            maintenance_load_kn additional_load_total in
  moment_results <- Calculations.calculate_critical_moment loads span ;;
  let max_moment := MomentResults.critical_moment moment_results in
  let critical_case := MomentResults.critical_case moment_results in
  shear_and_type <-
    (if String.eqb critical_case "Maintenance (point load)"
     then Ok (maintenance_load_kn / 2, "point_center")
     else total_uniform_load <-
            uniform_load_of_case critical_case span total_dead_load
              total_live_load total_wind_load maintenance_load_kn
              additional_load_total ;;
          max_shear <- Calculations.calculate_shear_force
                         span total_uniform_load "uniform" ;;
          Ok (max_shear, "uniform")) ;;
  let max_shear := fst shear_and_type in
  let load_type := snd shear_and_type in
  results <- Calculations.select_optimal_section
               max_moment span load_type (purlin_steel_grade st)
               (lower (purlin_design_code st)) "Channel" ;;
  Ok (mkResults "Purlin" st max_moment max_shear critical_case load_type
                results).

End WithTables.
End Purlins.

(** ** A small instance of the tables

    Three catalog entries per family and one grade per regime, in kN and m,
    to run the engine on concrete inputs.  The theorems below hold for every
    instance; this one only feeds the examples. *)

Module Sample.

Definition IPE100 : SectionProperties :=
  mkSection "IPE 100" (100 # 1000) (55 # 1000) (41 # 10000) (57 # 10000)
            (1032 # 1000000) (171 # 100000000) (342 # 10000000).

Definition IPE200 : SectionProperties :=
  mkSection "IPE 200" (200 # 1000) (100 # 1000) (56 # 10000) (85 # 10000)
            (2848 # 1000000) (1943 # 100000000) (1943 # 10000000).

Definition IPE300 : SectionProperties :=
  mkSection "IPE 300" (300 # 1000) (150 # 1000) (71 # 10000) (107 # 10000)
            (5381 # 1000000) (8356 # 100000000) (5571 # 10000000).

Definition UPN100 : SectionProperties :=
  mkSection "UPN 100" (100 # 1000) (50 # 1000) (60 # 10000) (85 # 10000)
            (1350 # 1000000) (206 # 100000000) (412 # 10000000).

Definition UPN200 : SectionProperties :=
  mkSection "UPN 200" (200 # 1000) (75 # 1000) (85 # 10000) (115 # 10000)
            (3220 # 1000000) (1910 # 100000000) (1910 # 10000000).

Definition sample_yield_stress (code grade : string) : option Q :=
  if String.eqb code "egyptian code" && String.eqb grade "St 37"
  then Some 240000
  else if String.eqb code "american code" && String.eqb grade "A36"
  then Some 250000
  else None.

Definition sample_sections_for (code section_type : string)
  : SectionProperties * list SectionProperties :=
  if String.eqb section_type "Channel" then (UPN100, [UPN200])
  else (IPE100, [IPE200; IPE300]).

(** A toy critical moment, E.I over the square of the span; sections
    without an inertia have nothing to compute it from. *)
Definition sample_ltb_critical (sec : SectionProperties) (span fy : Q)
  : option Q :=
  if Qeq_bool (Ix sec) 0 then None
  else Some (210000000 * Ix sec / (span * span)).

#[export] Instance tables : Tables := {|
  KG_TO_KN := 981 # 100000;
  E_MODULUS := 210000000;
  yield_stress := sample_yield_stress;
  sections_for := sample_sections_for;
  flange_limit := fun _ _ => 11;
  web_limit := fun _ _ => 111;
  ltb_critical := sample_ltb_critical;
  ltb_factor := fun _ => 9 # 10
|}.

(** The floor-beam form at its default values. *)
Definition floor_default : FloorBeams.session_state :=
  FloorBeams.mkState 5 1 (3 # 2) (5 # 2) true 0 "St 37" "Egyptian Code" 0 [].

(** The purlin form at its default values. *)
Definition purlin_default : Purlins.session_state :=
  Purlins.mkState 6 (1 # 2) 1 false 100 (7 # 10) 15 "St 37" "Egyptian Code" [].

(** A floor beam that carries the reaction of another beam, a load in kN
    and a load in kg/m. *)
Definition floor_with_reaction : FloorBeams.session_state :=
  FloorBeams.mkState 5 1 (3 # 2) (5 # 2) true 0 "St 37" "Egyptian Code" 10
    [Load.mk 2 "kN" "Case A"; Load.mk 50 "kg/m" "Case B"].

(** Spans a form can hold: the number input has no lower bound. *)
Definition floor_zero_span : FloorBeams.session_state :=
  FloorBeams.mkState 0 1 (3 # 2) (5 # 2) true 0 "St 37" "Egyptian Code" 10 [].



(** A purlin with the maintenance load alone, and a light additional load. *)
Definition purlin_maintenance_only (ls : list Load.t) : Purlins.session_state :=
  Purlins.mkState 6 0 0 false 100 0 15 "St 37" "Egyptian Code" ls.

Definition light_load : list Load.t := [Load.mk (1 # 100) "kN/m" "Case A"].

(** The same magnitude entered per area and per length. *)
Definition per_area : Load.t := Load.mk 2 "kN/m²" "Case A".
Definition per_length : Load.t := Load.mk 2 "kN/m" "Case A".

(** The same loads under two labellings. *)
Definition loads_case_a : list Load.t :=
  [Load.mk 2 "kN" "Case A"; Load.mk 50 "kg/m" "Case A"].
Definition loads_case_b : list Load.t :=
  [Load.mk 2 "kN" "Case B"; Load.mk 50 "kg/m" "Case A"].

End Sample.

(** ** Well-formed inputs *)

Section WellFormed.
Context `{T : Tables}.

(** A unit [convert_to_kn] accepts. *)
Definition recognised (u : string) : bool :=
  contains "kg" (lower u) || contains "kn" (lower u).

(** The grade is in the table of the regime the page passes on. *)
Definition grade_known (design_code steel_grade : string) : bool :=
  match yield_stress (lower design_code) steel_grade with
  | Some _ => true
  | None => false
  end.

Definition units_recognised (loads : list Load.t) : bool :=
  forallb (fun l => recognised (Load.unit l)) loads.

(** What an entry of the additional loads contributes: its value and its
    unit, the case label left out. *)
Definition value_and_unit (l : Load.t) : Q * string :=
  (Load.value l, Load.unit l).

End WellFormed.

(** The same form with another chord angle. *)
Definition floor_with_chord_angle (a : Q) (st : FloorBeams.session_state)
  : FloorBeams.session_state :=
  FloorBeams.mkState
    (FloorBeams.span st) (FloorBeams.dead_load st)
    (FloorBeams.floor_cover_load st) (FloorBeams.live_load st)
    (FloorBeams.is_accessible st) a (FloorBeams.steel_grade st)
    (FloorBeams.design_code st) (FloorBeams.supported_beam_reaction st)
    (FloorBeams.additional_loads st).

Definition purlin_with_chord_angle (a : Q) (st : Purlins.session_state)
  : Purlins.session_state :=
  Purlins.mkState
    (Purlins.purlin_span st) (Purlins.purlin_dead_load st)
    (Purlins.purlin_live_load st) (Purlins.purlin_is_accessible st)
    (Purlins.purlin_maintenance_load st) (Purlins.purlin_wind_load st)
    a (Purlins.purlin_steel_grade st) (Purlins.purlin_design_code st)
    (Purlins.purlin_additional_loads st).

(** The same form with other additional loads. *)
Definition floor_with_loads (ls : list Load.t) (st : FloorBeams.session_state)
  : FloorBeams.session_state :=
  FloorBeams.mkState
    (FloorBeams.span st) (FloorBeams.dead_load st)
    (FloorBeams.floor_cover_load st) (FloorBeams.live_load st)
    (FloorBeams.is_accessible st) (FloorBeams.chord_angle st)
    (FloorBeams.steel_grade st) (FloorBeams.design_code st)
    (FloorBeams.supported_beam_reaction st) ls.

Definition purlin_with_loads (ls : list Load.t) (st : Purlins.session_state)
  : Purlins.session_state :=
  Purlins.mkState
    (Purlins.purlin_span st) (Purlins.purlin_dead_load st)
    (Purlins.purlin_live_load st) (Purlins.purlin_is_accessible st)
    (Purlins.purlin_maintenance_load st) (Purlins.purlin_wind_load st)
    (Purlins.purlin_chord_angle st) (Purlins.purlin_steel_grade st)
    (Purlins.purlin_design_code st) ls.

(** The computed part of a stored design: everything but the echo. *)
Definition floor_computed (o : FloorBeams.design_results)
  : Q * Q * Q * DesignResult :=
  (FloorBeams.total_load o, FloorBeams.moment o, FloorBeams.shear o,
   FloorBeams.results o).

Definition purlin_computed (o : Purlins.design_results)
  : Q * Q * string * string * DesignResult :=
  (Purlins.moment o, Purlins.shear o, Purlins.critical_case o,
   Purlins.load_type o, Purlins.results o).

Definition map_result {A B : Type} (f : A -> B) (c : result A) : result B :=
  match c with
  | Ok a => Ok (f a)
  | Raise e => Raise e
  end.

(** ** The rows of additional loads

    [add_load] and [remove_load] have the same text in both pages, on
    [additional_loads] in one and on [purlin_additional_loads] in the other;
    so has the loop that draws one line of widgets per row. *)

Module Rows.

(** The options of the case select box. *)
Definition CASE_OPTIONS : list string := ["Case A"; "Case B"].

(** [add_load()]: [append] of the blank row. *)
Definition add_load (additional_loads : list Load.t) : list Load.t :=
  (additional_loads ++ [Load.mk 0 "kN" "Case A"])%list.

(** [l.pop(index)], the list that is left: a negative index counts from the
    end, and an index outside the list is an IndexError, here [None]. *)
Definition pop {A : Type} (index : Z) (l : list A) : option (list A) :=
  let n := Z.of_nat (length l) in
  let j := if (index <? 0)%Z then (index + n)%Z else index in
  if ((j <? 0) || (n <=? j))%Z then None
  else Some (firstn (Z.to_nat j) l ++ skipn (S (Z.to_nat j)) l)%list.

(** [remove_load(index)]. *)
Definition remove_load (index : Z) (additional_loads : list Load.t)
  : option (list Load.t) :=
  pop index additional_loads.

(** [options.index(x)]: the first position of [x], a ValueError ([None])
    when [x] is not an option. *)
Fixpoint index_of (x : string) (options : list string) : option nat :=
  match options with
  | [] => None
  | o :: rest =>
      if String.eqb o x then Some O else option_map S (index_of x rest)
  end.

(** The loop [for i, load in enumerate(additional_loads)]: each row looks
    its unit and its case up in the option lists, to preselect them, and
    takes the values its three widgets return.  [widgets i load] stands for
    what the user leaves in the widgets of row [i]. *)
Fixpoint draw_rows (widgets : nat -> Load.t -> Load.t) (i : nat)
  (additional_loads : list Load.t) : option (list Load.t) :=
  match additional_loads with
  | [] => Some []
  | load :: rest =>
      match index_of (Load.unit load) UNIT_OPTIONS,
            index_of (Load.case load) CASE_OPTIONS with
      | Some _, Some _ =>
          option_map (cons (widgets i load)) (draw_rows widgets (S i) rest)
      | _, _ => None
      end
  end.


End Rows.

(** The same form with another answer to the accessibility question. *)
Definition floor_with_accessible (b : bool) (st : FloorBeams.session_state)
  : FloorBeams.session_state :=
  FloorBeams.mkState
    (FloorBeams.span st) (FloorBeams.dead_load st)
    (FloorBeams.floor_cover_load st) (FloorBeams.live_load st)
    b (FloorBeams.chord_angle st) (FloorBeams.steel_grade st)
    (FloorBeams.design_code st) (FloorBeams.supported_beam_reaction st)
    (FloorBeams.additional_loads st).

Definition purlin_with_accessible (b : bool) (st : Purlins.session_state)
  : Purlins.session_state :=
  Purlins.mkState
    (Purlins.purlin_span st) (Purlins.purlin_dead_load st)
    (Purlins.purlin_live_load st) b
    (Purlins.purlin_maintenance_load st) (Purlins.purlin_wind_load st)
    (Purlins.purlin_chord_angle st) (Purlins.purlin_steel_grade st)
    (Purlins.purlin_design_code st) (Purlins.purlin_additional_loads st).

(** The same form with another reaction of the supported beam. *)
Definition floor_with_reaction_of (r : Q) (st : FloorBeams.session_state)
  : FloorBeams.session_state :=
  FloorBeams.mkState
    (FloorBeams.span st) (FloorBeams.dead_load st)
    (FloorBeams.floor_cover_load st) (FloorBeams.live_load st)
    (FloorBeams.is_accessible st) (FloorBeams.chord_angle st)
    (FloorBeams.steel_grade st) (FloorBeams.design_code st) r
    (FloorBeams.additional_loads st).

(** ** The Calculate button

    [calculate_results] works on the session: it raises the flag
    [calculate_clicked] in its first line, computes, and writes
    [design_results] in its last lines.  An exception on the way leaves the
    script there.  The stored design is [None] for the empty dictionary the
    page starts with; the diagrams are images and are left out. *)

Module FloorSession.

Record t : Type := mk {
  form : FloorBeams.session_state;
  calculate_clicked : bool;
  design_results : option FloorBeams.design_results
}.

Section WithTables.
Context `{T : Tables}.

Definition calculate_results (s : t) : t * option exn :=
  let s := mk (form s) true (design_results s) in
  match FloorBeams.calculate_results (form s) with
  | Ok out => (mk (form s) (calculate_clicked s) (Some out), None)
  | Raise e => (s, Some e)
  end.

End WithTables.

(** [results.get('overall_status', 'Unknown')], [results] being
    [design_results.get('results', {})]. *)
Definition shown_status (s : t) : string :=
  match design_results s with
  | Some out => status_string (overall_status (FloorBeams.results out))
  | None => "Unknown"
  end.

(** ["green" if status == "Safe" else "red"]. *)
Definition status_color (status : string) : string :=
  if String.eqb status "Safe" then "green" else "red".

End FloorSession.

Module PurlinSession.

Record t : Type := mk {
  form : Purlins.session_state;
  calculate_clicked : bool;
  design_results : option Purlins.design_results
}.

Section WithTables.
Context `{T : Tables}.

Definition calculate_results (s : t) : t * option exn :=
  let s := mk (form s) true (design_results s) in
  match Purlins.calculate_results (form s) with
  | Ok out => (mk (form s) (calculate_clicked s) (Some out), None)
  | Raise e => (s, Some e)
  end.

End WithTables.

Definition shown_status (s : t) : string :=
  match design_results s with
  | Some out => status_string (overall_status (Purlins.results out))
  | None => "Unknown"
  end.

End PurlinSession.

(** * Properties *)

(** ** The exception monad *)

Lemma bind_Ok {A B : Type} (c : result A) (k : A -> result B) (b : B) :
  Py.bind c k = Ok b -> exists a, c = Ok a /\ k a = Ok b.
Proof.
  destruct c as [a|e]; simpl; intros H.
  - exists a. split; [reflexivity | exact H].
  - discriminate H.
Qed.

Lemma truediv_Ok (a b q : Q) :
  truediv a b = Ok q -> ~ b == 0 /\ q = a / b.
Proof.
  unfold truediv. destruct (Qeq_bool b 0) eqn:E; intros H.
  - discriminate H.
  - split.
    + intros Hb. apply Qeq_bool_iff in Hb. congruence.
    + congruence.
Qed.

Lemma truediv_nonzero (a b : Q) : ~ b == 0 -> truediv a b = Ok (a / b).
Proof.
  intros Hb. unfold truediv. destruct (Qeq_bool b 0) eqn:E.
  - apply Qeq_bool_iff in E. contradiction.
  - reflexivity.
Qed.

Lemma truediv_zero (a b : Q) : b == 0 -> truediv a b = Raise ZeroDivisionError.
Proof.
  intros Hb. unfold truediv. apply Qeq_bool_iff in Hb. now rewrite Hb.
Qed.

Ltac bind_inv H x Hx :=
  apply bind_Ok in H; destruct H as (x & Hx & H).

(** ** Beam analysis *)

(** C1.  On a span L > 0 the beam analysis answers, for a uniform load w,
    the moment w.L^2/8 and the shear w.L/2, and for a point load P at
    midspan the moment P.L/4 and the shear P/2. *)
Theorem beam_analysis_closed_forms (L w P : Q) :
  0 < L ->
  exists M V M' V' : Q,
    Calculations.calculate_moment L w "uniform" = Ok M /\
    M == w * L ^ 2 / 8 /\
    Calculations.calculate_shear_force L w "uniform" = Ok V /\
    V == w * L / 2 /\
    Calculations.calculate_moment L P "point_center" = Ok M' /\
    M' == P * L / 4 /\
    Calculations.calculate_shear_force L P "point_center" = Ok V' /\
    V' == P / 2.
Proof.
  intros _.
  exists (w * (L * L) / 8), (w * L / 2), (P * L / 4), (P / 2).
  repeat split; reflexivity.
Qed.

(** The figures of the design document: L = 5 m and w = 4 kN/m, P = 8 kN. *)
Lemma beam_analysis_closed_forms_witness :
  0 < 5 /\
  exists M V M' V' : Q,
    Calculations.calculate_moment 5 4 "uniform" = Ok M /\
    M == 4 * 5 ^ 2 / 8 /\
    Calculations.calculate_shear_force 5 4 "uniform" = Ok V /\
    V == 4 * 5 / 2 /\
    Calculations.calculate_moment 5 8 "point_center" = Ok M' /\
    M' == 8 * 5 / 4 /\
    Calculations.calculate_shear_force 5 8 "point_center" = Ok V' /\
    V' == 8 / 2.
Proof.
  split; [reflexivity | apply (beam_analysis_closed_forms 5 4 8); reflexivity].
Defined.

Example uniform_5m_4kN :
  map_result Qred (Calculations.calculate_moment 5 4 "uniform") = Ok (25 # 2)
  /\ map_result Qred (Calculations.calculate_shear_force 5 4 "uniform") = Ok 10.
Proof. split; reflexivity. Qed.

Example point_4m_8kN :
  map_result Qred (Calculations.calculate_moment 4 8 "point_center") = Ok 8
  /\ map_result Qred (Calculations.calculate_shear_force 4 8 "point_center") = Ok 4.
Proof. split; reflexivity. Qed.

(** ** Capacity checker and section selector *)

Section Selector.
Context `{T : Tables}.

Lemma Status_eqb_eq (a b : Status) : Status_eqb a b = true <-> a = b.
Proof. destruct a, b; simpl; split; intros H; congruence. Qed.

Lemma safe_if_Safe (b : bool) : Calculations.safe_if b = Safe <-> b = true.
Proof. destruct b; simpl; split; intros H; congruence. Qed.

Lemma ltb_passes_iff (s : Status) :
  Calculations.ltb_passes s = true <-> s = Safe \/ s = CannotDetermine.
Proof.
  destruct s; simpl; split; intros H; try tauto; try discriminate.
  destruct H; discriminate.
Qed.

(** The overall verdict of one candidate, read off its four checks. *)
Lemma overall_of_Safe_iff cap cmp ltb dfl :
  Calculations.overall_of cap cmp ltb dfl = Safe <->
  CapacityCheck.status cap = Safe
  /\ CompactnessCheck.flange_status cmp = Safe
  /\ CompactnessCheck.web_status cmp = Safe
  /\ (LtbCheck.status ltb = Safe \/ LtbCheck.status ltb = CannotDetermine)
  /\ DeflectionCheck.status dfl = Safe.
Proof.
  unfold Calculations.overall_of.
  rewrite safe_if_Safe, !andb_true_iff, !Status_eqb_eq, ltb_passes_iff.
  tauto.
Qed.

(** The compactness check classifies a section Compact exactly when both of
    its axes report Safe. *)
Lemma compact_iff_axes_safe sec code fy :
  let c := Calculations.check_compactness sec code fy in
  CompactnessCheck.classification c = Compact <->
  CompactnessCheck.flange_status c = Safe /\ CompactnessCheck.web_status c = Safe.
Proof.
  unfold Calculations.check_compactness; simpl.
  destruct (Qle_bool _ (flange_limit code fy)), (Qle_bool _ (web_limit code fy));
    simpl; split; intros H; try tauto; try discriminate;
    destruct H; discriminate.
Qed.

(** What [check_section] returns, when it returns. *)
Lemma check_section_inv moment span load_type fy code section_type sec r :
  Calculations.check_section moment span load_type fy code section_type sec = Ok r ->
  exists d,
    r = mkDesignResult sec d
          (Calculations.check_capacity sec fy moment)
          (Calculations.check_compactness sec code fy)
          (Calculations.check_ltb sec code fy moment span)
          (Calculations.check_deflection span d
             (Calculations.limit_ratio_of section_type))
          (Calculations.overall_of
             (Calculations.check_capacity sec fy moment)
             (Calculations.check_compactness sec code fy)
             (Calculations.check_ltb sec code fy moment span)
             (Calculations.check_deflection span d
                (Calculations.limit_ratio_of section_type)))
          false.
Proof.
  unfold Calculations.check_section. intros H.
  bind_inv H d Hd. exists d. now inversion H.
Qed.

(** With one of the two patterns, every candidate gets its four checks. *)
Lemma check_section_returns moment span load_type fy code section_type sec :
  load_type = "uniform" \/ load_type = "point_center" ->
  exists r,
    Calculations.check_section moment span load_type fy code section_type sec
    = Ok r.
Proof.
  intros [-> | ->]; unfold Calculations.check_section,
    Calculations.calculate_deflection; simpl; eexists; reflexivity.
Qed.

Lemma last_cons {A : Type} (l : list A) (x d : A) :
  last (x :: l) d = last l x.
Proof.
  revert x d. induction l as [|y l IH]; intros x d; [reflexivity|].
  change (last (x :: y :: l) d) with (last (y :: l) d).
  now rewrite !IH.
Qed.

(** The scan returns either the first Safe candidate as it was checked, or
    the last candidate marked as exhausted. *)
Lemma select_from_inv check candidate rest r :
  Calculations.select_from check candidate rest = Ok r ->
  exists s r0,
    In s (candidate :: rest) /\ check s = Ok r0 /\
    ((overall_status r0 = Safe /\ r = r0)
     \/ (overall_status r0 <> Safe /\ r = Calculations.exhausted r0
         /\ s = last rest candidate)).
Proof.
  revert candidate. induction rest as [|next rest IH]; intros candidate H;
    simpl in H; bind_inv H r0 Hr0;
    destruct (Status_eqb (overall_status r0) Safe) eqn:E.
  - exists candidate, r0. apply Status_eqb_eq in E.
    inversion H; subst. simpl; auto.
  - exists candidate, r0. inversion H; subst.
    split; [simpl; auto|]. split; [assumption|]. right.
    repeat split. intros Hs. apply Status_eqb_eq in Hs. congruence.
  - exists candidate, r0. apply Status_eqb_eq in E.
    inversion H; subst. simpl; auto.
  - destruct (IH next H) as (s & r1 & Hin & Hck & Hcase).
    exists s, r1. split; [right; exact Hin|]. split; [exact Hck|].
    destruct Hcase as [Hsafe | (Hns & Hr & Hs)]; [left; exact Hsafe|].
    right. repeat split; try assumption.
    rewrite Hs. symmetry. apply last_cons.
Qed.

(** The scan never fails by itself: it returns as soon as every candidate
    can be checked. *)
Lemma select_from_returns check candidate rest :
  (forall s, exists r, check s = Ok r) ->
  exists r, Calculations.select_from check candidate rest = Ok r.
Proof.
  intros Hck. revert candidate.
  induction rest as [|next rest IH]; intros candidate; simpl;
    destruct (Hck candidate) as (r0 & ->); simpl;
    destruct (Status_eqb (overall_status r0) Safe); eauto.
Qed.

(** The selector answers whenever the grade is in the table and the pattern
    is one of the two. *)
Lemma select_optimal_section_returns moment span load_type steel_grade code
  section_type fy :
  yield_stress code steel_grade = Some fy ->
  load_type = "uniform" \/ load_type = "point_center" ->
  exists r,
    Calculations.select_optimal_section moment span load_type steel_grade code
      section_type = Ok r.
Proof.
  intros Hfy Hlt. unfold Calculations.select_optimal_section. rewrite Hfy.
  destruct (sections_for code section_type) as [first rest].
  apply select_from_returns. intros s.
  now apply check_section_returns.
Qed.

(** What the selector returns, when it returns: a checked candidate of the
    catalog, kept as it was when Safe, marked exhausted otherwise. *)
Lemma select_optimal_section_inv moment span load_type steel_grade code
  section_type r :
  Calculations.select_optimal_section moment span load_type steel_grade code
    section_type = Ok r ->
  exists fy s r0,
    yield_stress code steel_grade = Some fy /\
    Calculations.check_section moment span load_type fy code section_type s
    = Ok r0 /\
    ((overall_status r0 = Safe /\ r = r0)
     \/ (overall_status r0 <> Safe /\ r = Calculations.exhausted r0)).
Proof.
  unfold Calculations.select_optimal_section. intros H.
  destruct (yield_stress code steel_grade) as [fy|]; [|discriminate H].
  destruct (sections_for code section_type) as [first rest].
  apply select_from_inv in H. destruct H as (s & r0 & _ & Hck & Hcase).
  exists fy, s, r0. split; [reflexivity|]. split; [exact Hck|].
  destruct Hcase as [Hs | (Hns & Hr & _)]; [left; exact Hs | right; auto].
Qed.

(** C4.  The overall status the selector reports is Safe exactly when the
    capacity check is Safe, the compactness check classifies the section
    Compact (both of its axes Safe), the LTB check is Safe or could not be
    determined for want of section properties, and the deflection check is
    Safe. *)
Theorem overall_status_safe_iff moment span load_type steel_grade code
  section_type r :
  Calculations.select_optimal_section moment span load_type steel_grade code
    section_type = Ok r ->
  (overall_status r = Safe <->
   CapacityCheck.status (capacity_check r) = Safe
   /\ CompactnessCheck.classification (compactness_check r) = Compact
   /\ (LtbCheck.status (ltb_check r) = Safe
       \/ LtbCheck.status (ltb_check r) = CannotDetermine)
   /\ DeflectionCheck.status (deflection_check r) = Safe).
Proof.
  intros H. apply select_optimal_section_inv in H.
  destruct H as (fy & s & r0 & _ & Hck & Hcase).
  apply check_section_inv in Hck. destruct Hck as (d & Hr0).
  assert (Hov : overall_status r0 = Safe <->
                CapacityCheck.status (capacity_check r0) = Safe
                /\ CompactnessCheck.classification (compactness_check r0) = Compact
                /\ (LtbCheck.status (ltb_check r0) = Safe
                    \/ LtbCheck.status (ltb_check r0) = CannotDetermine)
                /\ DeflectionCheck.status (deflection_check r0) = Safe).
  { rewrite Hr0. cbn [overall_status capacity_check compactness_check
                      ltb_check deflection_check].
    rewrite overall_of_Safe_iff, compact_iff_axes_safe. tauto. }
  destruct Hcase as [(_ & ->) | (Hns & ->)]; [exact Hov|].
  unfold Calculations.exhausted; cbn [overall_status capacity_check
    compactness_check ltb_check deflection_check].
  split; [discriminate|]. intros Hall. apply Hov in Hall. contradiction.
Qed.




(** The deflection check of whatever the selector returns is the check of
    the returned deflection against the ratio of the section family. *)
Lemma selector_deflection_check moment span load_type steel_grade code
  section_type r :
  Calculations.select_optimal_section moment span load_type steel_grade code
    section_type = Ok r ->
  deflection_check r
  = Calculations.check_deflection span (deflection r)
      (Calculations.limit_ratio_of section_type).
Proof.
  intros H. apply select_optimal_section_inv in H.
  destruct H as (fy & s & r0 & _ & Hck & Hcase).
  apply check_section_inv in Hck. destruct Hck as (d & Hr0).
  destruct Hcase as [(_ & ->) | (_ & ->)]; rewrite Hr0; reflexivity.
Qed.

End Selector.

(** ** The loop over the additional loads *)

Section AdditionalLoadsFacts.
Context `{T : Tables}.

(** The loop reads the value and the unit of an entry and nothing else. *)
Lemma load_value_of_reads_value_and_unit span l l' :
  value_and_unit l = value_and_unit l' ->
  load_value_of span l = load_value_of span l'.
Proof.
  unfold value_and_unit, load_value_of. intros H.
  inversion H as [[Hv Hu]]. now rewrite Hv, Hu.
Qed.

Lemma process_additional_loads_reads_value_and_unit span ls :
  forall acc ls',
    map value_and_unit ls = map value_and_unit ls' ->
    process_additional_loads span acc ls = process_additional_loads span acc ls'.
Proof.
  induction ls as [|l ls IH]; intros acc [|l' ls'] H; simpl in H;
    try discriminate H; [reflexivity|].
  pose proof (f_equal (@hd _ (value_and_unit l)) H) as Hl.
  pose proof (f_equal (@tl _) H) as Hls. simpl in Hl, Hls. simpl.
  rewrite (load_value_of_reads_value_and_unit span l l' Hl).
  destruct (load_value_of span l'); simpl; [|reflexivity].
  now apply IH.
Qed.

Lemma convert_to_kn_returns value u :
  recognised u = true -> exists v, Calculations.convert_to_kn value u = Ok v.
Proof.
  unfold recognised, Calculations.convert_to_kn. intros H.
  destruct (contains "kg" (lower u)); [eexists; reflexivity|].
  simpl in H. rewrite H. eexists; reflexivity.
Qed.

(** On a non-zero span every recognised entry converts. *)
Lemma load_value_of_returns span l :
  ~ span == 0 -> recognised (Load.unit l) = true ->
  exists v, load_value_of span l = Ok v.
Proof.
  intros Hs Hu. unfold load_value_of.
  destruct (convert_to_kn_returns (Load.value l) _ Hu) as (v & ->). simpl.
  destruct (negb _); [|eexists; reflexivity].
  rewrite (truediv_nonzero _ _ Hs). eexists; reflexivity.
Qed.

Lemma process_additional_loads_returns span ls :
  ~ span == 0 -> units_recognised ls = true ->
  forall acc, exists a, process_additional_loads span acc ls = Ok a.
Proof.
  intros Hs. induction ls as [|l ls IH]; intros Hu acc; simpl.
  - eexists; reflexivity.
  - unfold units_recognised in Hu. simpl in Hu.
    apply andb_true_iff in Hu. destruct Hu as (Hl & Hls).
    destruct (load_value_of_returns span l Hs Hl) as (v & ->). simpl.
    now apply IH.
Qed.

End AdditionalLoadsFacts.

(** ** The floor-beam page *)

Section FloorBeamFacts.
Context `{T : Tables}.

(** Every step of a run that stored a design. *)
Lemma floor_run_inv st out :
  FloorBeams.calculate_results st = Ok out ->
  exists d a,
    (if gt (FloorBeams.supported_beam_reaction st) 0
     then e <- truediv (FloorBeams.supported_beam_reaction st)
                       (FloorBeams.span st) ;;
          Ok (FloorBeams.dead_load st + e)
     else Ok (FloorBeams.dead_load st)) = Ok d
    /\ process_additional_loads (FloorBeams.span st) 0
         (FloorBeams.additional_loads st) = Ok a
    /\ FloorBeams.total_load out
       = d + FloorBeams.floor_cover_load st * 1
         + FloorBeams.live_load st * 1 + a
    /\ Calculations.calculate_moment (FloorBeams.span st)
         (FloorBeams.total_load out) "uniform" = Ok (FloorBeams.moment out)
    /\ Calculations.calculate_shear_force (FloorBeams.span st)
         (FloorBeams.total_load out) "uniform" = Ok (FloorBeams.shear out)
    /\ Calculations.select_optimal_section (FloorBeams.moment out)
         (FloorBeams.span st) "uniform" (FloorBeams.steel_grade st)
         (lower (FloorBeams.design_code st)) "I-Beam"
       = Ok (FloorBeams.results out)
    /\ FloorBeams.echo out = st.
Proof.
  unfold FloorBeams.calculate_results. cbv zeta. intros H.
  bind_inv H d Hd. bind_inv H a Ha. bind_inv H m Hm. bind_inv H v Hv.
  bind_inv H r Hr. inversion H; subst out; clear H. simpl.
  exists d, a. repeat split; assumption.
Qed.

(** The dead load after the reaction of a supported beam has been spread
    over the span. *)
Lemma floor_dead_load_spec st d :
  (if gt (FloorBeams.supported_beam_reaction st) 0
   then e <- truediv (FloorBeams.supported_beam_reaction st)
                     (FloorBeams.span st) ;;
        Ok (FloorBeams.dead_load st + e)
   else Ok (FloorBeams.dead_load st)) = Ok d ->
  d == FloorBeams.dead_load st
       + (if gt (FloorBeams.supported_beam_reaction st) 0
          then FloorBeams.supported_beam_reaction st / FloorBeams.span st
          else 0).
Proof.
  destruct (gt (FloorBeams.supported_beam_reaction st) 0); intros H.
  - bind_inv H e He. apply truediv_Ok in He. destruct He as (_ & ->).
    inversion H. reflexivity.
  - inversion H. ring.
Qed.

(** A run on a non-zero span, with recognised units and a grade of the
    table, stores a design. *)
Lemma floor_run_returns st :
  ~ FloorBeams.span st == 0 ->
  units_recognised (FloorBeams.additional_loads st) = true ->
  grade_known (FloorBeams.design_code st) (FloorBeams.steel_grade st) = true ->
  exists out, FloorBeams.calculate_results st = Ok out.
Proof.
  intros Hs Hu Hg. unfold FloorBeams.calculate_results. cbv zeta.
  assert (Hd : exists d,
    (if gt (FloorBeams.supported_beam_reaction st) 0
     then e <- truediv (FloorBeams.supported_beam_reaction st)
                       (FloorBeams.span st) ;;
          Ok (FloorBeams.dead_load st + e)
     else Ok (FloorBeams.dead_load st)) = Ok d).
  { destruct (gt _ 0); [|eexists; reflexivity].
    rewrite (truediv_nonzero _ _ Hs). eexists; reflexivity. }
  destruct Hd as (d & ->). simpl.
  destruct (process_additional_loads_returns _ _ Hs Hu 0) as (a & ->). simpl.
  unfold grade_known in Hg.
  destruct (yield_stress (lower (FloorBeams.design_code st))
                         (FloorBeams.steel_grade st)) as [fy|] eqn:Hfy;
    [|discriminate Hg].
  match goal with
  | |- context [Calculations.select_optimal_section ?m ?s ?lt ?g ?c ?ty] =>
      destruct (select_optimal_section_returns m s lt g c ty fy Hfy
                  (or_introl eq_refl)) as (r & ->)
  end.
  simpl. eexists; reflexivity.
Qed.

(** The page never hands the chord angle on: a run with another chord angle
    computes the same load, moment, shear and selector result. *)
Lemma floor_chord_angle_unused a st :
  map_result floor_computed
    (FloorBeams.calculate_results (floor_with_chord_angle a st))
  = map_result floor_computed (FloorBeams.calculate_results st).
Proof.
  unfold FloorBeams.calculate_results, floor_with_chord_angle. cbv zeta.
  cbn [FloorBeams.span FloorBeams.dead_load FloorBeams.floor_cover_load
       FloorBeams.live_load FloorBeams.steel_grade FloorBeams.design_code
       FloorBeams.supported_beam_reaction FloorBeams.additional_loads].
  repeat match goal with
         | |- context [Py.bind ?c _] => destruct c; cbn [Py.bind map_result]
         end; reflexivity.
Qed.

(** The page reads the value and the unit of each additional load and never
    its case. *)
Lemma floor_case_unused ls ls' st :
  map value_and_unit ls = map value_and_unit ls' ->
  map_result floor_computed
    (FloorBeams.calculate_results (floor_with_loads ls st))
  = map_result floor_computed
      (FloorBeams.calculate_results (floor_with_loads ls' st)).
Proof.
  intros H. unfold FloorBeams.calculate_results, floor_with_loads. cbv zeta.
  cbn [FloorBeams.span FloorBeams.dead_load FloorBeams.floor_cover_load
       FloorBeams.live_load FloorBeams.steel_grade FloorBeams.design_code
       FloorBeams.supported_beam_reaction FloorBeams.additional_loads].
  rewrite (process_additional_loads_reads_value_and_unit _ ls 0 ls' H).
  repeat match goal with
         | |- context [Py.bind ?c _] => destruct c; cbn [Py.bind map_result]
         end; reflexivity.
Qed.

End FloorBeamFacts.

(** ** The purlin page *)

Section PurlinFacts.
Context `{T : Tables}.

(** The combiner always answers, and with one of its four combinations, the
    moment being the one of that combination. *)
Lemma critical_moment_cases loads span :
  exists mr,
    Calculations.calculate_critical_moment loads span = Ok mr /\
    ((MomentResults.critical_case mr = "Dead + Live"
      /\ MomentResults.critical_moment mr
         = (dead loads + live loads + additional loads) * (span * span) / 8)
     \/ (MomentResults.critical_case mr = "Dead + Live + Wind"
         /\ MomentResults.critical_moment mr
            = (dead loads + live loads + wind loads + additional loads)
              * (span * span) / 8)
     \/ (MomentResults.critical_case mr = "Maintenance (point load)"
         /\ MomentResults.critical_moment mr = maintenance loads * span / 4)
     \/ (MomentResults.critical_case mr = "Dead + Live + Maintenance"
         /\ MomentResults.critical_moment mr
            = (dead loads + live loads + maintenance loads / span
               + additional loads) * (span * span) / 8)).
Proof.
  unfold Calculations.calculate_critical_moment, Calculations.combinations.
  cbn [Calculations.critical_of Calculations.calculate_moment String.eqb
       Ascii.eqb Bool.eqb Py.bind MomentResults.critical_moment].
  eexists. split; [reflexivity|].
  repeat match goal with
         | |- context [if gt ?a ?b then _ else _] =>
             destruct (gt a b);
             cbn [MomentResults.critical_moment MomentResults.critical_case]
         end; tauto.
Qed.

(** Every step of a run that stored a design. *)
Lemma purlin_run_inv st out :
  Purlins.calculate_results st = Ok out ->
  exists a mr,
    process_additional_loads (Purlins.purlin_span st) 0
      (Purlins.purlin_additional_loads st) = Ok a
    /\ Calculations.calculate_critical_moment
         (mkLoads (Purlins.purlin_dead_load st) (Purlins.purlin_live_load st)
                  (Purlins.purlin_wind_load st * (3 # 2))
                  (Purlins.purlin_maintenance_load st * KG_TO_KN) a)
         (Purlins.purlin_span st) = Ok mr
    /\ Purlins.moment out = MomentResults.critical_moment mr
    /\ Purlins.critical_case out = MomentResults.critical_case mr
    /\ (if String.eqb (MomentResults.critical_case mr) "Maintenance (point load)"
        then Purlins.shear out = Purlins.purlin_maintenance_load st * KG_TO_KN / 2
             /\ Purlins.load_type out = "point_center"
        else exists w,
               Purlins.uniform_load_of_case (MomentResults.critical_case mr)
                 (Purlins.purlin_span st) (Purlins.purlin_dead_load st)
                 (Purlins.purlin_live_load st)
                 (Purlins.purlin_wind_load st * (3 # 2))
                 (Purlins.purlin_maintenance_load st * KG_TO_KN) a = Ok w
               /\ Calculations.calculate_shear_force (Purlins.purlin_span st)
                    w "uniform" = Ok (Purlins.shear out)
               /\ Purlins.load_type out = "uniform")
    /\ Calculations.select_optimal_section (Purlins.moment out)
         (Purlins.purlin_span st) (Purlins.load_type out)
         (Purlins.purlin_steel_grade st)
         (lower (Purlins.purlin_design_code st)) "Channel"
       = Ok (Purlins.results out)
    /\ Purlins.echo out = st.
Proof.
  unfold Purlins.calculate_results, Calculations.calculate_wind_load.
  cbv zeta. intros H.
  bind_inv H a Ha. bind_inv H mr Hmr. bind_inv H sv Hsv. bind_inv H r Hr.
  inversion H; subst out; clear H. simpl.
  exists a, mr. repeat split; try assumption.
  destruct (String.eqb (MomentResults.critical_case mr)
                       "Maintenance (point load)").
  - inversion Hsv. simpl. split; reflexivity.
  - bind_inv Hsv w Hw. bind_inv Hsv v Hv. inversion Hsv. simpl.
    exists w. repeat split; assumption.
Qed.

(** The uniform load behind the shear, for each of the three uniform
    combinations: the loads named by the combination plus the additional
    loads. *)
Lemma uniform_load_of_case_spec span d l w P a :
  ~ span == 0 ->
  exists u1 u2 u3,
    Purlins.uniform_load_of_case "Dead + Live" span d l w P a = Ok u1
    /\ u1 == d + l + a
    /\ Purlins.uniform_load_of_case "Dead + Live + Wind" span d l w P a = Ok u2
    /\ u2 == d + l + w + a
    /\ Purlins.uniform_load_of_case "Dead + Live + Maintenance" span d l w P a
       = Ok u3
    /\ u3 == d + l + P / span + a.
Proof.
  intros Hs. unfold Purlins.uniform_load_of_case.
  repeat match goal with
         | |- context [contains ?n ?s] =>
             let b := eval vm_compute in (contains n s) in
             change (contains n s) with b
         end.
  cbn [andb negb]. rewrite (truediv_nonzero P span Hs). cbn [Py.bind].
  exists (0 + (d + l) + a), (0 + (d + l) + w + a), (0 + (d + l) + P / span + a).
  repeat split; ring.
Qed.

(** On a non-zero span the shear branch answers for every name. *)
Lemma uniform_load_of_case_returns name span d l w P a :
  ~ span == 0 ->
  exists u, Purlins.uniform_load_of_case name span d l w P a = Ok u.
Proof.
  intros Hs. unfold Purlins.uniform_load_of_case.
  rewrite (truediv_nonzero P span Hs).
  destruct (contains "Maintenance" name && negb (contains "point" name));
    simpl; eexists; reflexivity.
Qed.

(** A run on a non-zero span, with recognised units and a grade of the
    table, stores a design. *)
Lemma purlin_run_returns st :
  ~ Purlins.purlin_span st == 0 ->
  units_recognised (Purlins.purlin_additional_loads st) = true ->
  grade_known (Purlins.purlin_design_code st) (Purlins.purlin_steel_grade st)
  = true ->
  exists out, Purlins.calculate_results st = Ok out.
Proof.
  intros Hs Hu Hg. unfold Purlins.calculate_results. cbv zeta.
  destruct (process_additional_loads_returns _ _ Hs Hu 0) as (a & ->).
  cbn [Py.bind].
  match goal with
  | |- context [Calculations.calculate_critical_moment ?ls ?s] =>
      destruct (critical_moment_cases ls s) as (mr & -> & _)
  end.
  cbn [Py.bind].
  unfold grade_known in Hg.
  destruct (yield_stress (lower (Purlins.purlin_design_code st))
                         (Purlins.purlin_steel_grade st)) as [fy|] eqn:Hfy;
    [|discriminate Hg].
  destruct (String.eqb (MomentResults.critical_case mr)
                       "Maintenance (point load)").
  - cbn [Py.bind fst snd].
    match goal with
    | |- context [Calculations.select_optimal_section ?m ?s ?lt ?g ?c ?ty] =>
        destruct (select_optimal_section_returns m s lt g c ty fy Hfy
                    (or_intror eq_refl)) as (r & ->)
    end.
    simpl. eexists; reflexivity.
  - match goal with
    | |- context [Purlins.uniform_load_of_case ?n ?s ?d ?l ?w ?P ?a] =>
        destruct (uniform_load_of_case_returns n s d l w P a Hs) as (u & ->)
    end.
    simpl.
    match goal with
    | |- context [Calculations.select_optimal_section ?m ?s ?lt ?g ?c ?ty] =>
        destruct (select_optimal_section_returns m s lt g c ty fy Hfy
                    (or_introl eq_refl)) as (r & ->)
    end.
    simpl. eexists; reflexivity.
Qed.

(** The page never hands the chord angle on. *)
Lemma purlin_chord_angle_unused a st :
  map_result purlin_computed
    (Purlins.calculate_results (purlin_with_chord_angle a st))
  = map_result purlin_computed (Purlins.calculate_results st).
Proof.
  unfold Purlins.calculate_results, purlin_with_chord_angle. cbv zeta.
  cbn [Purlins.purlin_span Purlins.purlin_dead_load Purlins.purlin_live_load
       Purlins.purlin_maintenance_load Purlins.purlin_wind_load
       Purlins.purlin_steel_grade Purlins.purlin_design_code
       Purlins.purlin_additional_loads].
  repeat match goal with
         | |- context [Py.bind ?c _] => destruct c; cbn [Py.bind map_result]
         end; reflexivity.
Qed.

(** The page reads the value and the unit of each additional load and never
    its case. *)
Lemma purlin_case_unused ls ls' st :
  map value_and_unit ls = map value_and_unit ls' ->
  map_result purlin_computed
    (Purlins.calculate_results (purlin_with_loads ls st))
  = map_result purlin_computed
      (Purlins.calculate_results (purlin_with_loads ls' st)).
Proof.
  intros H. unfold Purlins.calculate_results, purlin_with_loads. cbv zeta.
  cbn [Purlins.purlin_span Purlins.purlin_dead_load Purlins.purlin_live_load
       Purlins.purlin_maintenance_load Purlins.purlin_wind_load
       Purlins.purlin_steel_grade Purlins.purlin_design_code
       Purlins.purlin_additional_loads].
  rewrite (process_additional_loads_reads_value_and_unit _ ls 0 ls' H).
  repeat match goal with
         | |- context [Py.bind ?c _] => destruct c; cbn [Py.bind map_result]
         end; reflexivity.
Qed.

End PurlinFacts.

(** ** What the pages compute *)

Section Pages.
Context `{T : Tables}.

Lemma uniform_moment_inv span w m :
  Calculations.calculate_moment span w "uniform" = Ok m ->
  m == w * span ^ 2 / 8.
Proof. intros H. inversion H. reflexivity. Qed.

Lemma uniform_shear_inv span w v :
  Calculations.calculate_shear_force span w "uniform" = Ok v ->
  v == w * span / 2.
Proof. intros H. inversion H. reflexivity. Qed.

(** The uniform load behind the purlin shear, combination by combination:
    the loads the name stands for, plus the additional loads. *)
Lemma uniform_load_dead_live span d l w P a u :
  Purlins.uniform_load_of_case "Dead + Live" span d l w P a = Ok u ->
  u == d + l + a.
Proof. intros H. inversion H. ring. Qed.

Lemma uniform_load_dead_live_wind span d l w P a u :
  Purlins.uniform_load_of_case "Dead + Live + Wind" span d l w P a = Ok u ->
  u == d + l + w + a.
Proof. intros H. inversion H. ring. Qed.

Lemma uniform_load_dead_live_maintenance span d l w P a u :
  Purlins.uniform_load_of_case "Dead + Live + Maintenance" span d l w P a
  = Ok u ->
  ~ span == 0 /\ u == d + l + P / span + a.
Proof.
  unfold Purlins.uniform_load_of_case.
  repeat match goal with
         | |- context [contains ?n ?s] =>
             let b := eval vm_compute in (contains n s) in
             change (contains n s) with b
         end.
  cbn [andb negb]. intros H.
  bind_inv H q Hq. bind_inv Hq e He. apply truediv_Ok in He.
  destruct He as (Hs & ->). inversion Hq; subst q. inversion H.
  split; [exact Hs | ring].
Qed.

(** C9.  The floor-beam page analyses one pattern only.  Whenever it stores
    a design, the load is the dead load, plus the reaction of a supported
    beam divided by the span when that reaction is positive, plus the floor
    cover, the live load and the additional loads; moment and shear are
    those of [calculate_moment] and [calculate_shear_force] under the tag
    ["uniform"], and the selector is asked with the same tag.  On a
    non-zero span, with recognised units and a grade of the table, it does
    store a design. *)
Theorem floor_beam_uniform_pattern_only st :
  (~ FloorBeams.span st == 0 ->
   units_recognised (FloorBeams.additional_loads st) = true ->
   grade_known (FloorBeams.design_code st) (FloorBeams.steel_grade st) = true ->
   exists out, FloorBeams.calculate_results st = Ok out)
  /\
  (forall out,
     FloorBeams.calculate_results st = Ok out ->
     exists a,
       process_additional_loads (FloorBeams.span st) 0
         (FloorBeams.additional_loads st) = Ok a
       /\ FloorBeams.total_load out
          == FloorBeams.dead_load st
             + (if gt (FloorBeams.supported_beam_reaction st) 0
                then FloorBeams.supported_beam_reaction st / FloorBeams.span st
                else 0)
             + FloorBeams.floor_cover_load st + FloorBeams.live_load st + a
       /\ Calculations.calculate_moment (FloorBeams.span st)
            (FloorBeams.total_load out) "uniform" = Ok (FloorBeams.moment out)
       /\ Calculations.calculate_shear_force (FloorBeams.span st)
            (FloorBeams.total_load out) "uniform" = Ok (FloorBeams.shear out)
       /\ Calculations.select_optimal_section (FloorBeams.moment out)
            (FloorBeams.span st) "uniform" (FloorBeams.steel_grade st)
            (lower (FloorBeams.design_code st)) "I-Beam"
          = Ok (FloorBeams.results out)).
Proof.
  split; [apply floor_run_returns|].
  intros out H. apply floor_run_inv in H.
  destruct H as (d & a & Hd & Ha & Htot & Hm & Hv & Hr & _).
  exists a. repeat split; try assumption.
  rewrite Htot. apply floor_dead_load_spec in Hd. rewrite Hd. ring.
Qed.

(** C2, as the pages have it.  The per-area loads the forms name are turned
    into per-length loads by a width fixed in the code: the floor cover and
    the live load of a floor beam by [beam_width = 1], the wind load of a
    purlin by [purlin_spacing = 3/2] through [calculate_wind_load].  The
    width is not an input. *)
Theorem named_per_area_loads_use_fixed_width fs fo ps po :
  FloorBeams.calculate_results fs = Ok fo ->
  Purlins.calculate_results ps = Ok po ->
  (exists d a,
     d == FloorBeams.dead_load fs
          + (if gt (FloorBeams.supported_beam_reaction fs) 0
             then FloorBeams.supported_beam_reaction fs / FloorBeams.span fs
             else 0)
     /\ process_additional_loads (FloorBeams.span fs) 0
          (FloorBeams.additional_loads fs) = Ok a
     /\ FloorBeams.total_load fo
        == d + FloorBeams.floor_cover_load fs * 1
           + FloorBeams.live_load fs * 1 + a)
  /\
  (exists a mr,
     process_additional_loads (Purlins.purlin_span ps) 0
       (Purlins.purlin_additional_loads ps) = Ok a
     /\ Calculations.calculate_critical_moment
          (mkLoads (Purlins.purlin_dead_load ps) (Purlins.purlin_live_load ps)
                   (Purlins.purlin_wind_load ps * (3 # 2))
                   (Purlins.purlin_maintenance_load ps * KG_TO_KN) a)
          (Purlins.purlin_span ps) = Ok mr
     /\ Purlins.moment po = MomentResults.critical_moment mr
     /\ Purlins.critical_case po = MomentResults.critical_case mr).
Proof.
  intros Hf Hp. split.
  - apply floor_run_inv in Hf.
    destruct Hf as (d & a & Hd & Ha & Htot & _).
    exists d, a. split; [now apply floor_dead_load_spec|].
    split; [exact Ha|]. now rewrite Htot.
  - apply purlin_run_inv in Hp.
    destruct Hp as (a & mr & Ha & Hmr & Hm & Hc & _).
    exists a, mr. repeat split; assumption.
Qed.

(** C3, as the pages have it.  The additional loads, converted, are part of
    the uniform load behind moment and shear of every floor-beam design and
    of every purlin design whose critical case is one of the three uniform
    combinations.  When the critical case is the maintenance point load,
    moment and shear are those of the point load alone. *)
Theorem additional_loads_in_every_uniform_sum fs fo ps po :
  FloorBeams.calculate_results fs = Ok fo ->
  Purlins.calculate_results ps = Ok po ->
  (exists a,
     process_additional_loads (FloorBeams.span fs) 0
       (FloorBeams.additional_loads fs) = Ok a
     /\ let w := FloorBeams.dead_load fs
                 + (if gt (FloorBeams.supported_beam_reaction fs) 0
                    then FloorBeams.supported_beam_reaction fs
                         / FloorBeams.span fs
                    else 0)
                 + FloorBeams.floor_cover_load fs + FloorBeams.live_load fs
                 + a in
        FloorBeams.moment fo == w * FloorBeams.span fs ^ 2 / 8
        /\ FloorBeams.shear fo == w * FloorBeams.span fs / 2)
  /\
  (exists a,
     process_additional_loads (Purlins.purlin_span ps) 0
       (Purlins.purlin_additional_loads ps) = Ok a
     /\ let L := Purlins.purlin_span ps in
        let d := Purlins.purlin_dead_load ps in
        let l := Purlins.purlin_live_load ps in
        let w := Purlins.purlin_wind_load ps * (3 # 2) in
        let P := Purlins.purlin_maintenance_load ps * KG_TO_KN in
        (Purlins.critical_case po = "Dead + Live"
         /\ Purlins.moment po == (d + l + a) * L ^ 2 / 8
         /\ Purlins.shear po == (d + l + a) * L / 2)
        \/ (Purlins.critical_case po = "Dead + Live + Wind"
            /\ Purlins.moment po == (d + l + w + a) * L ^ 2 / 8
            /\ Purlins.shear po == (d + l + w + a) * L / 2)
        \/ (Purlins.critical_case po = "Dead + Live + Maintenance"
            /\ Purlins.moment po == (d + l + P / L + a) * L ^ 2 / 8
            /\ Purlins.shear po == (d + l + P / L + a) * L / 2)
        \/ (Purlins.critical_case po = "Maintenance (point load)"
            /\ Purlins.moment po == P * L / 4
            /\ Purlins.shear po == P / 2)).
Proof.
  intros Hf Hp. split.
  - apply floor_run_inv in Hf.
    destruct Hf as (d & a & Hd & Ha & Htot & Hm & Hv & _).
    exists a. split; [exact Ha|]. cbv zeta.
    apply floor_dead_load_spec in Hd.
    apply uniform_moment_inv in Hm. apply uniform_shear_inv in Hv.
    rewrite Hm, Hv, Htot, Hd. split; simpl; field.
  - apply purlin_run_inv in Hp.
    destruct Hp as (a & mr & Ha & Hmr & Hm & Hc & Hsh & _).
    exists a. split; [exact Ha|]. cbv zeta.
    destruct (critical_moment_cases
                (mkLoads (Purlins.purlin_dead_load ps)
                         (Purlins.purlin_live_load ps)
                         (Purlins.purlin_wind_load ps * (3 # 2))
                         (Purlins.purlin_maintenance_load ps * KG_TO_KN) a)
                (Purlins.purlin_span ps)) as (mr' & Hmr' & Hcases).
    rewrite Hmr in Hmr'. inversion Hmr'; subst mr'; clear Hmr'.
    cbn [dead live wind maintenance additional] in Hcases.
    rewrite Hm, Hc.
    destruct Hcases as [(Hn & HM) | [(Hn & HM) | [(Hn & HM) | (Hn & HM)]]];
      rewrite Hn in Hsh |- *; rewrite HM.
    + left. destruct Hsh as (u & Hu & Hv & _).
      apply uniform_load_dead_live in Hu. apply uniform_shear_inv in Hv.
      split; [reflexivity|]. split; [simpl; field|].
      rewrite Hv, Hu. reflexivity.
    + right; left. destruct Hsh as (u & Hu & Hv & _).
      apply uniform_load_dead_live_wind in Hu. apply uniform_shear_inv in Hv.
      split; [reflexivity|]. split; [simpl; field|].
      rewrite Hv, Hu. reflexivity.
    + right; right; right. destruct Hsh as (Hv & _).
      split; [reflexivity|]. split; [reflexivity|].
      rewrite Hv. reflexivity.
    + right; right; left. destruct Hsh as (u & Hu & Hv & _).
      apply uniform_load_dead_live_maintenance in Hu. destruct Hu as (Hs & Hu).
      apply uniform_shear_inv in Hv.
      split; [reflexivity|]. split; [simpl; field; exact Hs|].
      rewrite Hv, Hu. reflexivity.
Qed.

(** C6.  The deflection check of a floor-beam design is the check of its
    deflection against span/360, the one of a purlin design the check of
    its deflection against span/240; both are the same function
    [check_deflection] of span and actual deflection, given another ratio. *)
Theorem deflection_ratio_policy fs fo ps po :
  FloorBeams.calculate_results fs = Ok fo ->
  Purlins.calculate_results ps = Ok po ->
  deflection_check (FloorBeams.results fo)
  = Calculations.check_deflection (FloorBeams.span fs)
      (deflection (FloorBeams.results fo)) (360, "L/360")
  /\ deflection_check (Purlins.results po)
     = Calculations.check_deflection (Purlins.purlin_span ps)
         (deflection (Purlins.results po)) (240, "L/240")
  /\ (forall span actual,
        DeflectionCheck.allowable_deflection
          (Calculations.check_deflection span actual (360, "L/360"))
        == span / 360
        /\ DeflectionCheck.allowable_deflection
             (Calculations.check_deflection span actual (240, "L/240"))
           == span / 240
        /\ DeflectionCheck.utilization
             (Calculations.check_deflection span actual (360, "L/360"))
           == actual / (span / 360)
        /\ DeflectionCheck.utilization
             (Calculations.check_deflection span actual (240, "L/240"))
           == actual / (span / 240)).
Proof.
  intros Hf Hp.
  apply floor_run_inv in Hf. destruct Hf as (_ & _ & _ & _ & _ & _ & _ & Hr & _).
  apply purlin_run_inv in Hp.
  destruct Hp as (_ & _ & _ & _ & _ & _ & _ & Hr' & _).
  apply selector_deflection_check in Hr, Hr'.
  split; [exact Hr|]. split; [exact Hr'|].
  intros span actual. repeat split; reflexivity.
Qed.


(** C8, as the pages have it.  The chord angle is read from the form and
    echoed in the stored design; it is handed neither to the selector nor to
    any other computation.  A run with another chord angle computes the same
    load, moment, shear, critical case and selector result, the LTB check
    among them, or stops on the same exception. *)
Theorem chord_angle_is_only_echoed a fs ps :
  map_result floor_computed
    (FloorBeams.calculate_results (floor_with_chord_angle a fs))
  = map_result floor_computed (FloorBeams.calculate_results fs)
  /\ map_result purlin_computed
       (Purlins.calculate_results (purlin_with_chord_angle a ps))
     = map_result purlin_computed (Purlins.calculate_results ps).
Proof.
  split; [apply floor_chord_angle_unused | apply purlin_chord_angle_unused].
Qed.

(** C10.  The case of an additional load reaches no computation: two forms
    that differ only in the case labels of their additional loads compute
    the same load, moment, shear, critical case and selector result, or stop
    on the same exception. *)
Theorem additional_load_case_has_no_effect ls ls' fs ps :
  map value_and_unit ls = map value_and_unit ls' ->
  map_result floor_computed
    (FloorBeams.calculate_results (floor_with_loads ls fs))
  = map_result floor_computed
      (FloorBeams.calculate_results (floor_with_loads ls' fs))
  /\ map_result purlin_computed
       (Purlins.calculate_results (purlin_with_loads ls ps))
     = map_result purlin_computed
         (Purlins.calculate_results (purlin_with_loads ls' ps)).
Proof.
  intros H. split; [now apply floor_case_unused | now apply purlin_case_unused].
Qed.

(** Two runs that differ in the chord angle only report the same LTB
    check. *)
Lemma floor_ltb_check_ignores_chord_angle a1 a2 st o1 o2 :
  FloorBeams.calculate_results (floor_with_chord_angle a1 st) = Ok o1 ->
  FloorBeams.calculate_results (floor_with_chord_angle a2 st) = Ok o2 ->
  ltb_check (FloorBeams.results o1) = ltb_check (FloorBeams.results o2).
Proof.
  intros H1 H2.
  pose proof (floor_chord_angle_unused a1 st) as E1.
  pose proof (floor_chord_angle_unused a2 st) as E2.
  rewrite H1 in E1. rewrite H2 in E2. rewrite <- E2 in E1.
  inversion E1. reflexivity.
Qed.

Lemma purlin_ltb_check_ignores_chord_angle a1 a2 st o1 o2 :
  Purlins.calculate_results (purlin_with_chord_angle a1 st) = Ok o1 ->
  Purlins.calculate_results (purlin_with_chord_angle a2 st) = Ok o2 ->
  ltb_check (Purlins.results o1) = ltb_check (Purlins.results o2).
Proof.
  intros H1 H2.
  pose proof (purlin_chord_angle_unused a1 st) as E1.
  pose proof (purlin_chord_angle_unused a2 st) as E2.
  rewrite H1 in E1. rewrite H2 in E2. rewrite <- E2 in E1.
  inversion E1. reflexivity.
Qed.

End Pages.

(** ** The rows of additional loads *)

Section RowFacts.

Local Open Scope list_scope.

Lemma add_load_length ls :
  length (Rows.add_load ls) = S (length ls).
Proof. unfold Rows.add_load. rewrite length_app. simpl. lia. Qed.

Lemma pop_range_false (n j : Z) :
  (0 <= j < n)%Z -> ((j <? 0) || (n <=? j))%Z = false.
Proof.
  intros H. apply orb_false_iff. split; [apply Z.ltb_ge | apply Z.leb_gt]; lia.
Qed.

Lemma pop_range_true (n j : Z) :
  (j < 0 \/ n <= j)%Z -> ((j <? 0) || (n <=? j))%Z = true.
Proof.
  intros H. apply orb_true_iff.
  destruct H; [left; apply Z.ltb_lt | right; apply Z.leb_le]; lia.
Qed.

Lemma pop_front {A : Type} (i : Z) (l : list A) :
  (0 <= i < Z.of_nat (length l))%Z ->
  Rows.pop i l = Some (firstn (Z.to_nat i) l ++ skipn (S (Z.to_nat i)) l).
Proof.
  intros H. unfold Rows.pop.
  replace (i <? 0)%Z with false by (symmetry; apply Z.ltb_ge; lia).
  now rewrite pop_range_false.
Qed.

Lemma pop_back {A : Type} (i : Z) (l : list A) :
  (- Z.of_nat (length l) <= i < 0)%Z ->
  Rows.pop i l
  = Some (firstn (Z.to_nat (i + Z.of_nat (length l))) l
          ++ skipn (S (Z.to_nat (i + Z.of_nat (length l)))) l).
Proof.
  intros H. unfold Rows.pop.
  replace (i <? 0)%Z with true by (symmetry; apply Z.ltb_lt; lia).
  rewrite pop_range_false by lia. reflexivity.
Qed.

Lemma pop_outside {A : Type} (i : Z) (l : list A) :
  (i < - Z.of_nat (length l) \/ Z.of_nat (length l) <= i)%Z ->
  Rows.pop i l = None.
Proof.
  intros H. unfold Rows.pop. destruct (i <? 0)%Z eqn:E.
  - apply Z.ltb_lt in E. rewrite pop_range_true by lia. reflexivity.
  - apply Z.ltb_ge in E. rewrite pop_range_true by lia. reflexivity.
Qed.

(** X1.  Removing the row that [add_load] has just appended, by its index
    or by -1, gives the list back. *)
Theorem remove_load_undoes_add_load (ls : list Load.t) :
  Rows.remove_load (Z.of_nat (length ls)) (Rows.add_load ls) = Some ls
  /\ Rows.remove_load (-1) (Rows.add_load ls) = Some ls.
Proof.
  assert (Hcut : firstn (length ls) (Rows.add_load ls)
                 ++ skipn (S (length ls)) (Rows.add_load ls) = ls).
  { unfold Rows.add_load.
    rewrite (skipn_all2 (n := S (length ls)))
      by (rewrite length_app; simpl; lia).
    rewrite firstn_app, firstn_all, Nat.sub_diag. simpl.
    now rewrite !app_nil_r. }
  unfold Rows.remove_load. split.
  - rewrite pop_front by (rewrite add_load_length; lia).
    rewrite Nat2Z.id. now rewrite Hcut.
  - rewrite pop_back by (rewrite add_load_length; lia).
    rewrite add_load_length.
    replace (-1 + Z.of_nat (S (length ls)))%Z with (Z.of_nat (length ls)) by lia.
    rewrite Nat2Z.id. now rewrite Hcut.
Qed.

Lemma cut_spec {A : Type} (j : nat) (l : list A) :
  (j < length l)%nat ->
  S (length (firstn j l ++ skipn (S j) l)) = length l
  /\ forall k,
       nth_error (firstn j l ++ skipn (S j) l) k
       = if (k <? j)%nat then nth_error l k else nth_error l (S k).
Proof.
  intros Hj. split.
  - rewrite length_app, length_firstn, length_skipn. lia.
  - intros k. destruct (k <? j)%nat eqn:E.
    + rewrite nth_error_app1
        by (rewrite length_firstn; apply Nat.ltb_lt in E; lia).
      rewrite nth_error_firstn. now rewrite E.
    + apply Nat.ltb_ge in E.
      rewrite nth_error_app2 by (rewrite length_firstn; lia).
      rewrite nth_error_skipn, length_firstn. f_equal. lia.
Qed.

(** X2.  An index inside the list, counted from the front or, when
    negative, from the end, removes that row and no other: the list is one
    shorter, the rows before it stay where they are and the rows after it
    move up by one. *)
Theorem remove_load_in_range (i : Z) (ls : list Load.t) :
  (- Z.of_nat (length ls) <= i < Z.of_nat (length ls))%Z ->
  exists ls',
    Rows.remove_load i ls = Some ls'
    /\ S (length ls') = length ls
    /\ forall k,
         nth_error ls' k
         = if (k <? Z.to_nat (i mod Z.of_nat (length ls)))%nat
           then nth_error ls k
           else nth_error ls (S k).
Proof.
  intros Hi. unfold Rows.remove_load.
  destruct (Z_lt_le_dec i 0) as [Hneg | Hpos].
  - rewrite pop_back by lia.
    assert (Hmod : (i mod Z.of_nat (length ls)
                    = i + Z.of_nat (length ls))%Z).
    { symmetry.
      apply (Z.mod_unique i (Z.of_nat (length ls)) (-1)
               (i + Z.of_nat (length ls))); lia. }
    rewrite Hmod. eexists. split; [reflexivity|].
    apply cut_spec. lia.
  - rewrite pop_front by lia.
    rewrite Z.mod_small by lia. eexists. split; [reflexivity|].
    apply cut_spec. lia.
Qed.

(** X3.  [remove_load] fails, as [pop] does with an IndexError, exactly on
    an index outside the list; on an empty list it fails on every index. *)
Theorem remove_load_out_of_range (i : Z) (ls : list Load.t) :
  (Rows.remove_load i ls = None
   <-> (i < - Z.of_nat (length ls) \/ Z.of_nat (length ls) <= i)%Z)
  /\ Rows.remove_load i [] = None.
Proof.
  unfold Rows.remove_load. split.
  - split; [|apply pop_outside].
    intros H.
    destruct (Z_lt_le_dec i (- Z.of_nat (length ls))) as [Hlow | Hlow];
      [left; exact Hlow|].
    destruct (Z_lt_le_dec i (Z.of_nat (length ls))) as [Hup | Hup];
      [|right; exact Hup].
    exfalso. destruct (Z_lt_le_dec i 0) as [Hneg | Hpos].
    + rewrite pop_back in H by lia. discriminate H.
    + rewrite pop_front in H by lia. discriminate H.
  - apply pop_outside. simpl. lia.
Qed.






End RowFacts.

(** ** The loop over the additional loads, continued *)

Section LoopFacts.
Context `{T : Tables}.

Local Open Scope list_scope.


Lemma load_value_of_Ok span l v :
  load_value_of span l = Ok v -> recognised (Load.unit l) = true.
Proof.
  unfold load_value_of, Calculations.convert_to_kn, recognised.
  destruct (contains "kg" (lower (Load.unit l))); [reflexivity|].
  destruct (contains "kn" (lower (Load.unit l))); [reflexivity|].
  intros H. discriminate H.
Qed.

(** Why a row fails: a division by a zero span, or a unit that is not
    recognised. *)
Lemma load_value_of_Raise span l e :
  load_value_of span l = Raise e ->
  (e = ZeroDivisionError /\ span == 0 /\ recognised (Load.unit l) = true)
  \/ (e = InvalidUnit /\ recognised (Load.unit l) = false).
Proof.
  unfold load_value_of, Calculations.convert_to_kn, recognised.
  destruct (contains "kg" (lower (Load.unit l))) eqn:Ekg;
    [|destruct (contains "kn" (lower (Load.unit l))) eqn:Ekn];
    cbn [Py.bind orb];
    try (destruct (negb (contains "m" (lower (Load.unit l))));
         [|intros H; discriminate H];
         unfold truediv; destruct (Qeq_bool span 0) eqn:E;
         intros H; [|discriminate H];
         apply Qeq_bool_iff in E; inversion H; left; auto).
  intros H. inversion H. right. auto.
Qed.

Lemma process_additional_loads_app span l1 :
  forall acc l2,
    process_additional_loads span acc (l1 ++ l2)
    = (a <- process_additional_loads span acc l1 ;;
       process_additional_loads span a l2).
Proof.
  induction l1 as [|l l1 IH]; intros acc l2; [reflexivity|].
  simpl. destruct (load_value_of span l); simpl; [apply IH | reflexivity].
Qed.

(** X6.  The loop over two lists in a row is the loop over the first,
    continued on the second from the total reached; a row that fails in the
    first list stops the whole loop with its exception, whatever follows. *)
Theorem process_additional_loads_composes span acc l1 l2 :
  process_additional_loads span acc (l1 ++ l2)
  = (a <- process_additional_loads span acc l1 ;;
     process_additional_loads span a l2)
  /\ (forall e, process_additional_loads span acc l1 = Raise e ->
                process_additional_loads span acc (l1 ++ l2) = Raise e).
Proof.
  split; [apply process_additional_loads_app|].
  intros e H. now rewrite process_additional_loads_app, H.
Qed.

Lemma process_additional_loads_Ok span ls :
  forall acc a,
    process_additional_loads span acc ls = Ok a ->
    units_recognised ls = true.
Proof.
  induction ls as [|l ls IH]; intros acc a H; [reflexivity|].
  simpl in H. bind_inv H v Hv. unfold units_recognised. simpl.
  rewrite (load_value_of_Ok _ _ _ Hv). exact (IH _ _ H).
Qed.

Lemma process_additional_loads_Raise span ls :
  forall acc e,
    process_additional_loads span acc ls = Raise e ->
    (e = ZeroDivisionError /\ span == 0)
    \/ (e = InvalidUnit /\ units_recognised ls = false).
Proof.
  induction ls as [|l ls IH]; intros acc e H; [discriminate H|].
  simpl in H. destruct (load_value_of span l) as [v|e'] eqn:Hv; simpl in H.
  - destruct (IH _ _ H) as [Hz | (He & Hu)]; [left; exact Hz|].
    right. split; [exact He|]. unfold units_recognised in *. simpl.
    rewrite Hu. apply andb_false_r.
  - inversion H; subst e'.
    destruct (load_value_of_Raise _ _ _ Hv) as [(He & Hs & _) | (He & Hu)];
      [left; auto|].
    right. split; [exact He|]. unfold units_recognised. simpl. now rewrite Hu.
Qed.




(** The blank row of [add_load] adds nothing on a span that is not zero,
    and stops the loop on a span that is. *)
Lemma blank_row_neutral span acc ls a :
  ~ span == 0 ->
  process_additional_loads span acc ls = Ok a ->
  exists a',
    process_additional_loads span acc (Rows.add_load ls) = Ok a' /\ a' == a.
Proof.
  intros Hs H. unfold Rows.add_load.
  rewrite process_additional_loads_app, H. cbn [Py.bind].
  cbn [process_additional_loads].
  change (load_value_of span (Load.mk 0 "kN" "Case A")) with (truediv 0 span).
  rewrite (truediv_nonzero 0 span Hs). cbn [Py.bind].
  eexists. split; [reflexivity|]. field. exact Hs.
Qed.

Lemma blank_row_zero_span span acc ls :
  span == 0 ->
  units_recognised ls = true ->
  process_additional_loads span acc (Rows.add_load ls)
  = Raise ZeroDivisionError.
Proof.
  intros Hs Hu. unfold Rows.add_load. rewrite process_additional_loads_app.
  destruct (process_additional_loads span acc ls) as [a|e] eqn:H;
    cbn [Py.bind].
  - cbn [process_additional_loads].
    change (load_value_of span (Load.mk 0 "kN" "Case A")) with (truediv 0 span).
    now rewrite (truediv_zero 0 span Hs).
  - destruct (process_additional_loads_Raise _ _ _ _ H) as [(-> & _) | (_ & Hn)];
      [reflexivity | congruence].
Qed.

End LoopFacts.

(** ** Why a page fails *)

Section Failures.
Context `{T : Tables}.








(** X10.  The shear branch of the purlin page, on any name of a critical
    case: unless the name has ["Maintenance"] in it and no ["point"], the
    maintenance load plays no part and the branch answers whatever the
    span; with such a name a span of zero stops it on the division. *)
Theorem purlin_shear_branch_and_maintenance name span d l w P a :
  (contains "Maintenance" name && negb (contains "point" name) = false ->
   Purlins.uniform_load_of_case name span d l w P a
   = Purlins.uniform_load_of_case name span d l w 0 a
   /\ exists u, Purlins.uniform_load_of_case name span d l w P a = Ok u)
  /\ (contains "Maintenance" name && negb (contains "point" name) = true ->
      span == 0 ->
      Purlins.uniform_load_of_case name span d l w P a
      = Raise ZeroDivisionError).
Proof.
  unfold Purlins.uniform_load_of_case. split.
  - intros ->. cbn [Py.bind]. split; [reflexivity | eexists; reflexivity].
  - intros -> Hs. now rewrite (truediv_zero P span Hs).
Qed.

(** X11.  After [add_load], a run on a span of zero always stops on the
    division of the blank row (or on an earlier one), on both pages, as
    long as the units are recognised. *)
Theorem blank_row_on_zero_span fs ps :
  (FloorBeams.span fs == 0 ->
   units_recognised (FloorBeams.additional_loads fs) = true ->
   FloorBeams.calculate_results
     (floor_with_loads (Rows.add_load (FloorBeams.additional_loads fs)) fs)
   = Raise ZeroDivisionError)
  /\ (Purlins.purlin_span ps == 0 ->
      units_recognised (Purlins.purlin_additional_loads ps) = true ->
      Purlins.calculate_results
        (purlin_with_loads (Rows.add_load (Purlins.purlin_additional_loads ps))
           ps)
      = Raise ZeroDivisionError).
Proof.
  split; intros Hs Hu.
  - unfold FloorBeams.calculate_results, floor_with_loads. cbv zeta.
    cbn [FloorBeams.span FloorBeams.dead_load FloorBeams.floor_cover_load
         FloorBeams.live_load FloorBeams.steel_grade FloorBeams.design_code
         FloorBeams.supported_beam_reaction FloorBeams.additional_loads].
    rewrite (blank_row_zero_span _ 0 _ Hs Hu).
    destruct (gt (FloorBeams.supported_beam_reaction fs) 0);
      [rewrite (truediv_zero _ _ Hs)|]; reflexivity.
  - unfold Purlins.calculate_results, purlin_with_loads. cbv zeta.
    cbn [Purlins.purlin_span Purlins.purlin_additional_loads].
    now rewrite (blank_row_zero_span _ 0 _ Hs Hu).
Qed.

(** X12.  A reaction of the supported beam that is zero or negative is
    left out: the run is the run without a reaction. *)
Theorem non_positive_reaction_ignored r st :
  r <= 0 ->
  map_result floor_computed
    (FloorBeams.calculate_results (floor_with_reaction_of r st))
  = map_result floor_computed
      (FloorBeams.calculate_results (floor_with_reaction_of 0 st)).
Proof.
  intros Hr. unfold FloorBeams.calculate_results, floor_with_reaction_of.
  cbv zeta.
  cbn [FloorBeams.span FloorBeams.dead_load FloorBeams.floor_cover_load
       FloorBeams.live_load FloorBeams.steel_grade FloorBeams.design_code
       FloorBeams.supported_beam_reaction FloorBeams.additional_loads].
  assert (Hgt : gt r 0 = false).
  { unfold gt. apply Qle_bool_iff in Hr. now rewrite Hr. }
  rewrite Hgt. change (gt 0 0) with false. cbn [Py.bind].
  repeat match goal with
         | |- context [Py.bind ?c _] => destruct c; cbn [Py.bind map_result]
         end; reflexivity.
Qed.

(** X13.  The answer to the accessibility question is stored and used for
    nothing: a run with the other answer computes the same, on both
    pages. *)
Theorem accessibility_is_only_echoed b fs ps :
  map_result floor_computed
    (FloorBeams.calculate_results (floor_with_accessible b fs))
  = map_result floor_computed (FloorBeams.calculate_results fs)
  /\ map_result purlin_computed
       (Purlins.calculate_results (purlin_with_accessible b ps))
     = map_result purlin_computed (Purlins.calculate_results ps).
Proof.
  split.
  - unfold FloorBeams.calculate_results, floor_with_accessible. cbv zeta.
    cbn [FloorBeams.span FloorBeams.dead_load FloorBeams.floor_cover_load
         FloorBeams.live_load FloorBeams.steel_grade FloorBeams.design_code
         FloorBeams.supported_beam_reaction FloorBeams.additional_loads].
    repeat match goal with
           | |- context [Py.bind ?c _] => destruct c; cbn [Py.bind map_result]
           end; reflexivity.
  - unfold Purlins.calculate_results, purlin_with_accessible. cbv zeta.
    cbn [Purlins.purlin_span Purlins.purlin_dead_load
         Purlins.purlin_live_load Purlins.purlin_maintenance_load
         Purlins.purlin_wind_load Purlins.purlin_steel_grade
         Purlins.purlin_design_code Purlins.purlin_additional_loads].
    repeat match goal with
           | |- context [Py.bind ?c _] => destruct c; cbn [Py.bind map_result]
           end; reflexivity.
Qed.

End Failures.

(** ** The blank row and the design *)

Section BlankRow.
Context `{T : Tables}.

Lemma gt_compat a a' b b' : a == a' -> b == b' -> gt a b = gt a' b'.
Proof. intros Ha Hb. unfold gt. now rewrite Ha, Hb. Qed.

Lemma calculate_moment_compat span w w' p m :
  w == w' ->
  Calculations.calculate_moment span w p = Ok m ->
  exists m', Calculations.calculate_moment span w' p = Ok m' /\ m' == m.
Proof.
  intros Hw. unfold Calculations.calculate_moment.
  destruct (String.eqb p "uniform");
    [|destruct (String.eqb p "point_center")]; intros H; inversion H;
    eexists; (split; [reflexivity|]); now rewrite Hw.
Qed.

(** The scan for the critical case follows the moments up to equality of
    rationals. *)
Lemma critical_of_compat span cs cs' :
  Forall2 (fun c c' => fst (fst c) = fst (fst c')
                       /\ snd (fst c) == snd (fst c')
                       /\ snd c = snd c') cs cs' ->
  forall best best' r,
    MomentResults.critical_moment best == MomentResults.critical_moment best' ->
    MomentResults.critical_case best = MomentResults.critical_case best' ->
    Calculations.critical_of best span cs = Ok r ->
    exists r',
      Calculations.critical_of best' span cs' = Ok r'
      /\ MomentResults.critical_moment r' == MomentResults.critical_moment r
      /\ MomentResults.critical_case r' = MomentResults.critical_case r.
Proof.
  induction 1 as [|[[n w] p] [[n' w'] p'] cs cs' (Hn & Hw & Hp) Hcs IH];
    intros best best' r Hm Hc H.
  - simpl in H |- *. inversion H; subst. exists best'.
    split; [reflexivity|]. split; [now symmetry | now symmetry].
  - simpl in Hn, Hw, Hp. subst n' p'.
    cbn [Calculations.critical_of] in H |- *. bind_inv H m Hmo.
    destruct (calculate_moment_compat span w w' p m Hw Hmo) as (m' & -> & Em).
    cbn [Py.bind].
    rewrite <- (gt_compat m m' _ _ (Qeq_sym _ _ Em) Hm).
    destruct (gt m (MomentResults.critical_moment best));
      (eapply IH; [| |exact H]); simpl; auto. now symmetry.
Qed.

Lemma critical_moment_compat d l w P a a' span mr :
  a == a' ->
  Calculations.calculate_critical_moment (mkLoads d l w P a) span = Ok mr ->
  exists mr',
    Calculations.calculate_critical_moment (mkLoads d l w P a') span = Ok mr'
    /\ MomentResults.critical_moment mr' == MomentResults.critical_moment mr
    /\ MomentResults.critical_case mr' = MomentResults.critical_case mr.
Proof.
  intros Ha. unfold Calculations.calculate_critical_moment,
    Calculations.combinations.
  cbn [dead live wind maintenance additional]. intros H.
  bind_inv H m Hmo.
  destruct (calculate_moment_compat span (d + l + a) (d + l + a') _ m
              ltac:(now rewrite Ha) Hmo) as (m' & -> & Em).
  cbn [Py.bind].
  eapply critical_of_compat; [| | |exact H]; simpl; [|now symmetry|reflexivity].
  repeat constructor; simpl; try reflexivity; now rewrite Ha.
Qed.

Lemma uniform_load_of_case_additional name span d l w P a a' u :
  a == a' ->
  Purlins.uniform_load_of_case name span d l w P a = Ok u ->
  exists u',
    Purlins.uniform_load_of_case name span d l w P a' = Ok u' /\ u' == u.
Proof.
  intros Ha. unfold Purlins.uniform_load_of_case. intros H.
  bind_inv H q Hq. rewrite Hq. cbn [Py.bind]. inversion H.
  eexists. split; [reflexivity|]. now rewrite Ha.
Qed.

Lemma grade_known_of_selected moment span load_type steel_grade design_code
  section_type r :
  Calculations.select_optimal_section moment span load_type steel_grade
    (lower design_code) section_type = Ok r ->
  grade_known design_code steel_grade = true.
Proof.
  intros H. apply select_optimal_section_inv in H.
  destruct H as (fy & _ & _ & Hfy & _). unfold grade_known. now rewrite Hfy.
Qed.

(** X14.  On a span that is not zero, the blank row of [add_load] changes
    nothing in the load, the moment and the shear of a floor beam: the run
    with the row goes through when the run without it did, and to the same
    three figures. *)
Theorem blank_row_keeps_floor_figures st o :
  ~ FloorBeams.span st == 0 ->
  FloorBeams.calculate_results st = Ok o ->
  exists o',
    FloorBeams.calculate_results
      (floor_with_loads (Rows.add_load (FloorBeams.additional_loads st)) st)
    = Ok o'
    /\ FloorBeams.total_load o' == FloorBeams.total_load o
    /\ FloorBeams.moment o' == FloorBeams.moment o
    /\ FloorBeams.shear o' == FloorBeams.shear o.
Proof.
  intros Hs H. apply floor_run_inv in H.
  destruct H as (d & a & Hd & Ha & Htot & Hm & Hv & Hr & _).
  destruct (blank_row_neutral _ _ _ _ Hs Ha) as (a1 & Ha1 & Ea).
  set (st' := floor_with_loads
                (Rows.add_load (FloorBeams.additional_loads st)) st).
  destruct (floor_run_returns st') as (o' & Ho').
  - exact Hs.
  - exact (process_additional_loads_Ok _ _ _ _ Ha1).
  - exact (grade_known_of_selected _ _ _ _ _ _ _ Hr).
  - exists o'. split; [exact Ho'|].
    apply floor_run_inv in Ho'.
    destruct Ho' as (d' & a' & Hd' & Ha' & Htot' & Hm' & Hv' & _).
    subst st'. cbn [floor_with_loads FloorBeams.span FloorBeams.dead_load
      FloorBeams.floor_cover_load FloorBeams.live_load
      FloorBeams.supported_beam_reaction FloorBeams.additional_loads]
      in Hd', Ha', Htot', Hm', Hv'.
    assert (d' = d) by congruence. assert (a' = a1) by congruence. subst d' a'.
    assert (Et : FloorBeams.total_load o' == FloorBeams.total_load o)
      by (rewrite Htot', Htot, Ea; reflexivity).
    apply uniform_moment_inv in Hm, Hm'. apply uniform_shear_inv in Hv, Hv'.
    split; [exact Et|]. split.
    + now rewrite Hm', Hm, Et.
    + now rewrite Hv', Hv, Et.
Qed.

(** X15.  The same on the purlin page, where the row changes neither the
    critical case nor the pattern handed to the selector, nor moment and
    shear. *)
Theorem blank_row_keeps_purlin_figures st o :
  ~ Purlins.purlin_span st == 0 ->
  Purlins.calculate_results st = Ok o ->
  exists o',
    Purlins.calculate_results
      (purlin_with_loads (Rows.add_load (Purlins.purlin_additional_loads st))
         st) = Ok o'
    /\ Purlins.critical_case o' = Purlins.critical_case o
    /\ Purlins.load_type o' = Purlins.load_type o
    /\ Purlins.moment o' == Purlins.moment o
    /\ Purlins.shear o' == Purlins.shear o.
Proof.
  intros Hs H. apply purlin_run_inv in H.
  destruct H as (a & mr & Ha & Hmr & Hm & Hc & Hsh & Hr & _).
  destruct (blank_row_neutral _ _ _ _ Hs Ha) as (a1 & Ha1 & Ea).
  set (st' := purlin_with_loads
                (Rows.add_load (Purlins.purlin_additional_loads st)) st).
  destruct (purlin_run_returns st') as (o' & Ho').
  - exact Hs.
  - exact (process_additional_loads_Ok _ _ _ _ Ha1).
  - exact (grade_known_of_selected _ _ _ _ _ _ _ Hr).
  - exists o'. split; [exact Ho'|].
    apply purlin_run_inv in Ho'.
    destruct Ho' as (a' & mr' & Ha' & Hmr' & Hm' & Hc' & Hsh' & _).
    subst st'. cbn [purlin_with_loads Purlins.purlin_span
      Purlins.purlin_dead_load Purlins.purlin_live_load
      Purlins.purlin_maintenance_load Purlins.purlin_wind_load
      Purlins.purlin_additional_loads] in Ha', Hmr', Hsh'.
    assert (a' = a1) by congruence. subst a'.
    destruct (critical_moment_compat _ _ _ _ a a1 _ mr
                (Qeq_sym _ _ Ea) Hmr) as (mr1 & Hmr1 & Em & Ec).
    assert (mr' = mr1) by congruence. subst mr'.
    rewrite Hc', Hc, Hm', Hm. rewrite Ec in Hsh'.
    split; [exact Ec|].
    destruct (String.eqb (MomentResults.critical_case mr)
                         "Maintenance (point load)").
    + destruct Hsh as (Hv & Hl). destruct Hsh' as (Hv' & Hl').
      split; [congruence|]. split; [exact Em|]. rewrite Hv', Hv. reflexivity.
    + destruct Hsh as (u & Hu & Hv & Hl).
      destruct Hsh' as (u' & Hu' & Hv' & Hl').
      split; [congruence|]. split; [exact Em|].
      destruct (uniform_load_of_case_additional _ _ _ _ _ _ a a1 u
                  (Qeq_sym _ _ Ea) Hu) as (u1 & Hu1 & Eu).
      assert (u' = u1) by congruence. subst u'.
      apply uniform_shear_inv in Hv, Hv'. now rewrite Hv', Hv, Eu.
Qed.

End BlankRow.

(** ** The Calculate button *)

Section CalculateButton.
Context `{T : Tables}.

Lemma status_string_Safe s : status_string s = "Safe" <-> s = Safe.
Proof. destruct s; simpl; split; intros H; congruence. Qed.

(** X16.  One click on Calculate, on the floor-beam page.  The flag
    [calculate_clicked] is up afterwards, whether the run failed or not.  A
    run that fails leaves the stored design as it was, so that the page goes
    on showing the earlier design and its status; a run that succeeds stores
    a design whose echo is the form.  A second click on the same form
    changes nothing more. *)
Theorem floor_calculate_click s :
  let s' := fst (FloorSession.calculate_results s) in
  FloorSession.calculate_clicked s' = true
  /\ FloorSession.form s' = FloorSession.form s
  /\ match snd (FloorSession.calculate_results s) with
     | Some e =>
         FloorBeams.calculate_results (FloorSession.form s) = Raise e
         /\ FloorSession.design_results s' = FloorSession.design_results s
         /\ FloorSession.shown_status s' = FloorSession.shown_status s
     | None =>
         exists out,
           FloorBeams.calculate_results (FloorSession.form s) = Ok out
           /\ FloorSession.design_results s' = Some out
           /\ FloorBeams.echo out = FloorSession.form s
     end
  /\ FloorSession.calculate_results s' = (s', snd (FloorSession.calculate_results s)).
Proof.
  unfold FloorSession.calculate_results. cbv zeta.
  cbn [FloorSession.form FloorSession.calculate_clicked
       FloorSession.design_results].
  destruct (FloorBeams.calculate_results (FloorSession.form s)) as [out|e] eqn:H;
    cbn [fst snd FloorSession.form FloorSession.calculate_clicked
         FloorSession.design_results]; rewrite ?H.
  - repeat split. exists out. repeat split.
    apply floor_run_inv in H. now destruct H as (_ & _ & _ & _ & _ & _ & _ & _ & He).
  - repeat split.
Qed.

(** X17.  The same click on the purlin page. *)
Theorem purlin_calculate_click s :
  let s' := fst (PurlinSession.calculate_results s) in
  PurlinSession.calculate_clicked s' = true
  /\ PurlinSession.form s' = PurlinSession.form s
  /\ match snd (PurlinSession.calculate_results s) with
     | Some e =>
         Purlins.calculate_results (PurlinSession.form s) = Raise e
         /\ PurlinSession.design_results s' = PurlinSession.design_results s
         /\ PurlinSession.shown_status s' = PurlinSession.shown_status s
     | None =>
         exists out,
           Purlins.calculate_results (PurlinSession.form s) = Ok out
           /\ PurlinSession.design_results s' = Some out
           /\ Purlins.echo out = PurlinSession.form s
     end
  /\ PurlinSession.calculate_results s' = (s', snd (PurlinSession.calculate_results s)).
Proof.
  unfold PurlinSession.calculate_results. cbv zeta.
  cbn [PurlinSession.form PurlinSession.calculate_clicked
       PurlinSession.design_results].
  destruct (Purlins.calculate_results (PurlinSession.form s)) as [out|e] eqn:H;
    cbn [fst snd PurlinSession.form PurlinSession.calculate_clicked
         PurlinSession.design_results]; rewrite ?H.
  - repeat split. exists out. repeat split.
    apply purlin_run_inv in H.
    now destruct H as (_ & _ & _ & _ & _ & _ & _ & _ & He).
  - repeat split.
Qed.


End CalculateButton.

(** ** The pattern of a purlin design *)

Section PurlinPattern.
Context `{T : Tables}.

(** X19.  The pattern a purlin design is stored with, and the selector and
    the diagrams are given, is the point load at midspan exactly when the
    critical case is the maintenance point load, and the uniform load in
    every other case; the shear is then half the maintenance load, whatever
    the other loads. *)
Theorem purlin_pattern_follows_critical_case st o :
  Purlins.calculate_results st = Ok o ->
  (Purlins.load_type o = "point_center"
   <-> Purlins.critical_case o = "Maintenance (point load)")
  /\ (Purlins.load_type o = "uniform"
      <-> Purlins.critical_case o <> "Maintenance (point load)")
  /\ (Purlins.critical_case o = "Maintenance (point load)" ->
      Purlins.shear o = Purlins.purlin_maintenance_load st * KG_TO_KN / 2)
  /\ Calculations.select_optimal_section (Purlins.moment o)
       (Purlins.purlin_span st) (Purlins.load_type o)
       (Purlins.purlin_steel_grade st)
       (lower (Purlins.purlin_design_code st)) "Channel"
     = Ok (Purlins.results o).
Proof.
  intros H. apply purlin_run_inv in H.
  destruct H as (a & mr & _ & _ & _ & Hc & Hsh & Hr & _).
  rewrite Hc.
  destruct (String.eqb (MomentResults.critical_case mr)
                       "Maintenance (point load)") eqn:E.
  - apply String.eqb_eq in E. destruct Hsh as (Hv & Hl).
    split; [rewrite Hl; split; auto|].
    split; [rewrite Hl; split; [intros H; discriminate H
                               | intros H; contradiction]|].
    split; [intros _; exact Hv | exact Hr].
  - apply String.eqb_neq in E. destruct Hsh as (u & _ & _ & Hl).
    split; [rewrite Hl; split; [intros H; discriminate H
                               | intros H; contradiction]|].
    split; [rewrite Hl; split; auto|].
    split; [intros H; contradiction | exact Hr].
Qed.

End PurlinPattern.

(** * Concrete runs

    The engine on the sample tables: the theorems above at explicit inputs,
    and the inputs on which the pages depart from the design document. *)

Import Sample.

(** The floor-beam form at its defaults selects the IPE 200 under 15.625 kNm. *)
Example floor_default_run :
  map_result (fun o => (Qred (FloorBeams.moment o), Qred (FloorBeams.shear o),
                        name (section_properties (FloorBeams.results o)),
                        overall_status (FloorBeams.results o)))
             (FloorBeams.calculate_results floor_default)
  = Ok (125 # 8, 25 # 2, "IPE 200", Safe).
Proof. vm_compute. reflexivity. Qed.

(** The purlin form at its defaults is governed by dead, live and wind. *)
Example purlin_default_run :
  map_result (fun o => (Purlins.critical_case o, Qred (Purlins.moment o),
                        Qred (Purlins.shear o), Purlins.load_type o,
                        name (section_properties (Purlins.results o))))
             (Purlins.calculate_results purlin_default)
  = Ok ("Dead + Live + Wind", 459 # 40, 153 # 20, "uniform", "UPN 200").
Proof. vm_compute. reflexivity. Qed.

Lemma overall_status_safe_iff_witness :
  exists r,
    Calculations.select_optimal_section (125 # 8) 5 "uniform" "St 37"
      "egyptian code" "I-Beam" = Ok r
    /\ (overall_status r = Safe <->
        CapacityCheck.status (capacity_check r) = Safe
        /\ CompactnessCheck.classification (compactness_check r) = Compact
        /\ (LtbCheck.status (ltb_check r) = Safe
            \/ LtbCheck.status (ltb_check r) = CannotDetermine)
        /\ DeflectionCheck.status (deflection_check r) = Safe).
Proof.
  eexists. split; [vm_compute; reflexivity|].
  apply (overall_status_safe_iff (125 # 8) 5 "uniform" "St 37"
           "egyptian code" "I-Beam").
  vm_compute. reflexivity.
Defined.


Lemma floor_beam_uniform_pattern_only_witness :
  exists out a,
    FloorBeams.calculate_results floor_with_reaction = Ok out
    /\ process_additional_loads 5 0
         (FloorBeams.additional_loads floor_with_reaction) = Ok a
    /\ FloorBeams.total_load out == 1 + 10 / 5 + (3 # 2) + (5 # 2) + a
    /\ Calculations.calculate_moment 5 (FloorBeams.total_load out) "uniform"
       = Ok (FloorBeams.moment out)
    /\ Calculations.calculate_shear_force 5 (FloorBeams.total_load out) "uniform"
       = Ok (FloorBeams.shear out).
Proof.
  destruct (floor_beam_uniform_pattern_only floor_with_reaction)
    as (Hret & Hinv).
  destruct Hret as (out & Hout).
  - intros H. vm_compute in H. discriminate H.
  - reflexivity.
  - reflexivity.
  - destruct (Hinv out Hout) as (a & Ha & Htot & Hm & Hv & _).
    exists out, a. split; [exact Hout|]. split; [exact Ha|].
    split; [exact Htot|]. split; [exact Hm | exact Hv].
Defined.

(** The reaction of 10 kN over 5 m, 2 kN over 5 m and 50 kg/m give, with
    the dead load, the floor cover and the live load, 7.8905 kN/m. *)
Example floor_with_reaction_run :
  map_result (fun o => (Qred (FloorBeams.total_load o),
                        Qred (FloorBeams.moment o)))
             (FloorBeams.calculate_results floor_with_reaction)
  = Ok (15781 # 2000, 15781 # 640).
Proof. vm_compute. reflexivity. Qed.

Lemma named_per_area_loads_use_fixed_width_witness :
  exists fo po d a mr,
    FloorBeams.calculate_results floor_with_reaction = Ok fo
    /\ Purlins.calculate_results purlin_default = Ok po
    /\ FloorBeams.total_load fo == d + (3 # 2) * 1 + (5 # 2) * 1 + a
    /\ Calculations.calculate_critical_moment
         (mkLoads (1 # 2) 1 ((7 # 10) * (3 # 2)) (100 * KG_TO_KN) 0) 6 = Ok mr
    /\ Purlins.moment po = MomentResults.critical_moment mr.
Proof.
  assert (Hf : exists fo,
             FloorBeams.calculate_results floor_with_reaction = Ok fo)
    by (eexists; vm_compute; reflexivity).
  assert (Hp : exists po, Purlins.calculate_results purlin_default = Ok po)
    by (eexists; vm_compute; reflexivity).
  destruct Hf as (fo & Hf). destruct Hp as (po & Hp).
  destruct (named_per_area_loads_use_fixed_width
              floor_with_reaction fo purlin_default po Hf Hp)
    as ((d & a & _ & _ & Htot) & (a' & mr & Ha' & Hmr & Hm & _)).
  exists fo, po, d, a, mr. split; [exact Hf|]. split; [exact Hp|].
  split; [exact Htot|]. split; [|exact Hm].
  simpl in Ha'. inversion Ha'; subst a'. exact Hmr.
Defined.

(** An additional load of 2 kN/m² counts for 2 kN/m, as the same figure
    entered in kN/m does, and on the purlin not for 2 times the spacing of
    1.5 m; on either page the design that comes out is the same. *)
Lemma per_area_additional_load_taken_as_linear :
  load_value_of 6 per_area = Ok 2
  /\ load_value_of 6 per_length = Ok 2
  /\ ~ 2 == 2 * (3 # 2)
  /\ map_result purlin_computed
       (Purlins.calculate_results (purlin_with_loads [per_area] purlin_default))
     = map_result purlin_computed
         (Purlins.calculate_results
            (purlin_with_loads [per_length] purlin_default))
  /\ map_result floor_computed
       (FloorBeams.calculate_results (floor_with_loads [per_area] floor_default))
     = map_result floor_computed
         (FloorBeams.calculate_results
            (floor_with_loads [per_length] floor_default)).
Proof.
  split; [reflexivity|]. split; [reflexivity|].
  split; [intros H; vm_compute in H; discriminate H|].
  split; vm_compute; reflexivity.
Qed.

Lemma additional_loads_in_every_uniform_sum_witness :
  exists fo po a,
    FloorBeams.calculate_results floor_with_reaction = Ok fo
    /\ Purlins.calculate_results purlin_default = Ok po
    /\ process_additional_loads 5 0
         (FloorBeams.additional_loads floor_with_reaction) = Ok a
    /\ FloorBeams.moment fo
       == (1 + 10 / 5 + (3 # 2) + (5 # 2) + a) * 5 ^ 2 / 8
    /\ FloorBeams.shear fo == (1 + 10 / 5 + (3 # 2) + (5 # 2) + a) * 5 / 2.
Proof.
  assert (Hf : exists fo,
             FloorBeams.calculate_results floor_with_reaction = Ok fo)
    by (eexists; vm_compute; reflexivity).
  assert (Hp : exists po, Purlins.calculate_results purlin_default = Ok po)
    by (eexists; vm_compute; reflexivity).
  destruct Hf as (fo & Hf). destruct Hp as (po & Hp).
  destruct (additional_loads_in_every_uniform_sum
              floor_with_reaction fo purlin_default po Hf Hp)
    as ((a & Ha & Hm & Hv) & _).
  exists fo, po, a. split; [exact Hf|]. split; [exact Hp|].
  split; [exact Ha|]. split; [exact Hm | exact Hv].
Defined.

(** With the maintenance load alone on the purlin and an additional load of
    0.01 kN/m, the maintenance point load governs and the shear is half the
    maintenance load, what it is without any additional load. *)
Lemma maintenance_point_load_omits_additional_loads :
  exists a o o0,
    process_additional_loads 6 0 light_load = Ok a
    /\ ~ a == 0
    /\ Purlins.calculate_results (purlin_maintenance_only light_load) = Ok o
    /\ Purlins.calculate_results (purlin_maintenance_only []) = Ok o0
    /\ Purlins.critical_case o = "Maintenance (point load)"
    /\ Purlins.shear o == 100 * KG_TO_KN / 2
    /\ Purlins.shear o = Purlins.shear o0.
Proof.
  eexists. eexists. eexists.
  split; [vm_compute; reflexivity|].
  split; [intros H; vm_compute in H; discriminate H|].
  split; [vm_compute; reflexivity|].
  split; [vm_compute; reflexivity|].
  split; [reflexivity|]. split; reflexivity.
Qed.

Lemma deflection_ratio_policy_witness :
  exists fo po,
    FloorBeams.calculate_results floor_default = Ok fo
    /\ Purlins.calculate_results purlin_default = Ok po
    /\ deflection_check (FloorBeams.results fo)
       = Calculations.check_deflection 5 (deflection (FloorBeams.results fo))
           (360, "L/360")
    /\ deflection_check (Purlins.results po)
       = Calculations.check_deflection 6 (deflection (Purlins.results po))
           (240, "L/240").
Proof.
  assert (Hf : exists fo, FloorBeams.calculate_results floor_default = Ok fo)
    by (eexists; vm_compute; reflexivity).
  assert (Hp : exists po, Purlins.calculate_results purlin_default = Ok po)
    by (eexists; vm_compute; reflexivity).
  destruct Hf as (fo & Hf). destruct Hp as (po & Hp).
  destruct (deflection_ratio_policy floor_default fo purlin_default po Hf Hp)
    as (H360 & H240 & _).
  exists fo, po. split; [exact Hf|]. split; [exact Hp|].
  split; [exact H360 | exact H240].
Defined.

(** The two pages at their defaults: 5 m over 360 and 6 m over 240. *)
Example default_allowable_deflections :
  map_result (fun o => (Qred (DeflectionCheck.allowable_deflection
                                (deflection_check (FloorBeams.results o))),
                        DeflectionCheck.limit_ratio
                          (deflection_check (FloorBeams.results o))))
             (FloorBeams.calculate_results floor_default)
  = Ok (1 # 72, "L/360")
  /\ map_result (fun o => (Qred (DeflectionCheck.allowable_deflection
                                   (deflection_check (Purlins.results o))),
                           DeflectionCheck.limit_ratio
                             (deflection_check (Purlins.results o))))
                (Purlins.calculate_results purlin_default)
     = Ok (1 # 40, "L/240").
Proof. split; vm_compute; reflexivity. Qed.



(** No choice of tables, of form and of two chord angles makes the LTB
    check of the two runs differ, on either page. *)
Lemma chord_angle_changes_no_ltb_check :
  ~ (exists (T : Tables) a1 a2 st o1 o2,
       FloorBeams.calculate_results (floor_with_chord_angle a1 st) = Ok o1
       /\ FloorBeams.calculate_results (floor_with_chord_angle a2 st) = Ok o2
       /\ ltb_check (FloorBeams.results o1) <> ltb_check (FloorBeams.results o2))
  /\
  ~ (exists (T : Tables) a1 a2 st o1 o2,
       Purlins.calculate_results (purlin_with_chord_angle a1 st) = Ok o1
       /\ Purlins.calculate_results (purlin_with_chord_angle a2 st) = Ok o2
       /\ ltb_check (Purlins.results o1) <> ltb_check (Purlins.results o2)).
Proof.
  split; intros (T & a1 & a2 & st & o1 & o2 & H1 & H2 & Hne); apply Hne.
  - exact (floor_ltb_check_ignores_chord_angle a1 a2 st o1 o2 H1 H2).
  - exact (purlin_ltb_check_ignores_chord_angle a1 a2 st o1 o2 H1 H2).
Qed.

(** The purlin form at its default chord angle of 15 degrees and at 0 and
    45 degrees: one and the same LTB check. *)
Example purlin_chord_angles_0_15_45 :
  map_result (fun o => ltb_check (Purlins.results o))
             (Purlins.calculate_results (purlin_with_chord_angle 0 purlin_default))
  = map_result (fun o => ltb_check (Purlins.results o))
               (Purlins.calculate_results purlin_default)
  /\ map_result (fun o => ltb_check (Purlins.results o))
                (Purlins.calculate_results
                   (purlin_with_chord_angle 45 purlin_default))
     = map_result (fun o => ltb_check (Purlins.results o))
                  (Purlins.calculate_results purlin_default).
Proof. split; vm_compute; reflexivity. Qed.

Lemma additional_load_case_has_no_effect_witness :
  map value_and_unit loads_case_a = map value_and_unit loads_case_b
  /\ loads_case_a <> loads_case_b
  /\ map_result floor_computed
       (FloorBeams.calculate_results (floor_with_loads loads_case_a floor_default))
     = map_result floor_computed
         (FloorBeams.calculate_results
            (floor_with_loads loads_case_b floor_default))
  /\ map_result purlin_computed
       (Purlins.calculate_results (purlin_with_loads loads_case_a purlin_default))
     = map_result purlin_computed
         (Purlins.calculate_results
            (purlin_with_loads loads_case_b purlin_default)).
Proof.
  split; [reflexivity|]. split; [discriminate|].
  apply (additional_load_case_has_no_effect loads_case_a loads_case_b
           floor_default purlin_default).
  reflexivity.
Defined.

(** ** The rows and the button on concrete forms *)

Lemma remove_load_in_range_witness :
  (- Z.of_nat (length loads_case_a) <= -1 < Z.of_nat (length loads_case_a))%Z
  /\ exists ls',
       Rows.remove_load (-1) loads_case_a = Some ls'
       /\ S (length ls') = length loads_case_a
       /\ nth_error ls' 0 = nth_error loads_case_a 0.
Proof.
  assert (Hr : (- Z.of_nat (length loads_case_a) <= -1
                < Z.of_nat (length loads_case_a))%Z) by (simpl; lia).
  split; [exact Hr|].
  destruct (remove_load_in_range (-1) loads_case_a Hr) as (ls' & H & Hlen & Hnth).
  exists ls'. split; [exact H|]. split; [exact Hlen|]. exact (Hnth 0%nat).
Defined.

(** Removing the second of three rows by its index, and the last by -1. *)
Example remove_load_examples :
  Rows.remove_load 1 [per_area; per_length; Load.mk 0 "kN" "Case A"]
  = Some [per_area; Load.mk 0 "kN" "Case A"]
  /\ Rows.remove_load (-1) [per_area; per_length] = Some [per_area]
  /\ Rows.remove_load 2 [per_area; per_length] = None
  /\ Rows.remove_load (-3) [per_area; per_length] = None.
Proof. repeat split. Qed.


(** A row whose unit is not an option stops the drawing loop. *)
Example draw_rows_unknown_unit :
  Rows.draw_rows (fun _ l => l) 0 [per_area; Load.mk 1 "lb" "Case A"] = None.
Proof. reflexivity. Qed.





(** An unknown grade is the third reason. *)
Example floor_unknown_grade :
  FloorBeams.calculate_results
    (FloorBeams.mkState 5 1 (3 # 2) (5 # 2) true 0 "A36" "Egyptian Code" 0 [])
  = Raise InvalidInput.
Proof. vm_compute. reflexivity. Qed.

Lemma purlin_shear_branch_and_maintenance_witness :
  (exists u,
     Purlins.uniform_load_of_case "Dead + Live + Wind" 0 1 2 3 4 5 = Ok u)
  /\ Purlins.uniform_load_of_case "Dead + Live + Maintenance" 0 1 2 3 4 5
     = Raise ZeroDivisionError.
Proof.
  destruct (purlin_shear_branch_and_maintenance "Dead + Live + Wind" 0 1 2 3 4 5)
    as (Hfree & _).
  destruct (purlin_shear_branch_and_maintenance "Dead + Live + Maintenance"
              0 1 2 3 4 5) as (_ & Hdiv).
  split.
  - exact (proj2 (Hfree eq_refl)).
  - apply Hdiv; reflexivity.
Defined.

Lemma blank_row_on_zero_span_witness :
  FloorBeams.calculate_results
    (floor_with_loads (Rows.add_load [])
       (FloorBeams.mkState 0 1 (3 # 2) (5 # 2) true 0 "St 37" "Egyptian Code"
          0 []))
  = Raise ZeroDivisionError
  /\ Purlins.calculate_results
       (purlin_with_loads (Rows.add_load [])
          (Purlins.mkState 0 (1 # 2) 1 false 100 (7 # 10) 15 "St 37"
             "Egyptian Code" []))
     = Raise ZeroDivisionError.
Proof.
  destruct (blank_row_on_zero_span
              (FloorBeams.mkState 0 1 (3 # 2) (5 # 2) true 0 "St 37"
                 "Egyptian Code" 0 [])
              (Purlins.mkState 0 (1 # 2) 1 false 100 (7 # 10) 15 "St 37"
                 "Egyptian Code" [])) as (Hf & Hp).
  split; [apply Hf | apply Hp]; reflexivity.
Defined.

(** Without the blank row the same floor-beam form, on its span of zero,
    divides nothing and is designed. *)
Example zero_span_without_rows :
  raises (FloorBeams.calculate_results
            (FloorBeams.mkState 0 1 (3 # 2) (5 # 2) true 0 "St 37"
               "Egyptian Code" 0 [])) = false.
Proof. vm_compute. reflexivity. Qed.

Lemma non_positive_reaction_ignored_witness :
  -3 <= 0
  /\ map_result floor_computed
       (FloorBeams.calculate_results (floor_with_reaction_of (-3) floor_default))
     = map_result floor_computed
         (FloorBeams.calculate_results (floor_with_reaction_of 0 floor_default)).
Proof.
  split; [discriminate|].
  apply (non_positive_reaction_ignored (-3) floor_default). discriminate.
Defined.

Lemma blank_row_keeps_floor_figures_witness :
  exists o o',
    FloorBeams.calculate_results floor_with_reaction = Ok o
    /\ FloorBeams.calculate_results
         (floor_with_loads
            (Rows.add_load (FloorBeams.additional_loads floor_with_reaction))
            floor_with_reaction) = Ok o'
    /\ FloorBeams.moment o' == FloorBeams.moment o
    /\ FloorBeams.shear o' == FloorBeams.shear o.
Proof.
  assert (Hf : exists o,
             FloorBeams.calculate_results floor_with_reaction = Ok o)
    by (eexists; vm_compute; reflexivity).
  destruct Hf as (o & Hf).
  destruct (blank_row_keeps_floor_figures floor_with_reaction o)
    as (o' & Ho' & _ & Hm & Hv).
  - intros H. vm_compute in H. discriminate H.
  - exact Hf.
  - exists o, o'. split; [exact Hf|]. split; [exact Ho'|].
    split; [exact Hm | exact Hv].
Defined.

Lemma blank_row_keeps_purlin_figures_witness :
  exists o o',
    Purlins.calculate_results purlin_default = Ok o
    /\ Purlins.calculate_results
         (purlin_with_loads
            (Rows.add_load (Purlins.purlin_additional_loads purlin_default))
            purlin_default) = Ok o'
    /\ Purlins.critical_case o' = Purlins.critical_case o
    /\ Purlins.moment o' == Purlins.moment o
    /\ Purlins.shear o' == Purlins.shear o.
Proof.
  assert (Hp : exists o, Purlins.calculate_results purlin_default = Ok o)
    by (eexists; vm_compute; reflexivity).
  destruct Hp as (o & Hp).
  destruct (blank_row_keeps_purlin_figures purlin_default o)
    as (o' & Ho' & Hc & _ & Hm & Hv).
  - intros H. vm_compute in H. discriminate H.
  - exact Hp.
  - exists o, o'. split; [exact Hp|]. split; [exact Ho'|].
    split; [exact Hc|]. split; [exact Hm | exact Hv].
Defined.

(** A first click on a form with a span of zero and a reaction: the flag
    is up, nothing is stored, and the page reads "Unknown" in red. *)
Example failed_first_click :
  let s := FloorSession.mk floor_zero_span false None in
  let s' := fst (FloorSession.calculate_results s) in
  snd (FloorSession.calculate_results s) = Some ZeroDivisionError
  /\ FloorSession.calculate_clicked s' = true
  /\ FloorSession.design_results s' = None
  /\ FloorSession.shown_status s' = "Unknown"
  /\ FloorSession.status_color (FloorSession.shown_status s') = "red".
Proof. vm_compute. repeat split. Qed.


Lemma purlin_pattern_follows_critical_case_witness :
  exists o,
    Purlins.calculate_results (purlin_maintenance_only light_load) = Ok o
    /\ (Purlins.load_type o = "point_center"
        <-> Purlins.critical_case o = "Maintenance (point load)")
    /\ (Purlins.critical_case o = "Maintenance (point load)" ->
        Purlins.shear o = 100 * KG_TO_KN / 2).
Proof.
  assert (Hp : exists o,
             Purlins.calculate_results (purlin_maintenance_only light_load)
             = Ok o) by (eexists; vm_compute; reflexivity).
  destruct Hp as (o & Hp).
  destruct (purlin_pattern_follows_critical_case
              (purlin_maintenance_only light_load) o Hp)
    as (Hpoint & _ & Hshear & _).
  exists o. split; [exact Hp|]. split; [exact Hpoint | exact Hshear].
Defined.
